(** * remo-python: the PyTorch image classification tutorial

    A shallow embedding of the code cells of
    [examples/google-colab/tutorial_pytorch_image_classification.ipynb]:
    the train / test split, the [FlowerDataset] adapter (the join of the
    annotations table with the tags table, and item access), the data
    loaders, the training and validation loop, and the inference pass that
    writes [model_predictions.csv].

    What the notebook calls in pandas, PIL and torch is not code of the
    repository.  Table assignment and selection are modelled as pandas
    performs them on data frames; image decoding, the network, the loss, the
    gradients and the Adam update are parameters of the development. *)

From Stdlib Require Import ZArith List String Ascii Bool Lia PrimFloat Uint63.
From Stdlib Require Import SpecFloat FloatOps FloatAxioms.
From stdpp Require Import base option list gmap strings pretty.

Set Default Proof Using "Type".

(** ** Python results *)

Module Py.

(** The exception classes the modelled cells can raise. *)
Inductive exn : Type :=
| KeyError | ValueError | AttributeError | ZeroDivisionError | OSError | IndexError
| RuntimeError.

Inductive result (A : Type) : Type :=
| Ok (a : A)
| Raise (e : exn).
Arguments Ok {A} a.
Arguments Raise {A} e.

Definition bind {A B : Type} (r : result A) (k : A -> result B) : result B :=
  match r with
  | Ok a => k a
  | Raise e => Raise e
  end.

Definition of_option {A : Type} (e : exn) (o : option A) : result A :=
  match o with
  | Some a => Ok a
  | None => Raise e
  end.

(** [for x in xs: s = body(s, x)], leaving the loop at the first raise. *)
Fixpoint for_each {A S : Type} (body : S -> A -> result S) (xs : list A) (s : S)
  : result S :=
  match xs with
  | [] => Ok s
  | x :: xs' => bind (body s x) (for_each body xs')
  end.

End Py.

Import Py.

Notation "x <- e ;; k" := (Py.bind e (fun x => k))
  (at level 100, e at next level, right associativity, only parsing).

#[global] Instance exn_eq_dec : EqDecision exn.
Proof. solve_decision. Defined.

(** ** Strings: [str.lower] and [os.path.basename]

    File and class names are byte strings.  [lower] is [str.lower] on ASCII
    text: a byte outside [A-Z] is kept, so a letter outside ASCII is not
    lower-cased as [str.lower] would; what is stated of the lower-casing of
    a class name is stated of ASCII names ([is_ascii]). *)

Definition lower_ascii (c : ascii) : ascii :=
  let n := nat_of_ascii c in
  if (65 <=? n)%nat && (n <=? 90)%nat then ascii_of_nat (n + 32) else c.

Fixpoint lower (s : string) : string :=
  match s with
  | EmptyString => EmptyString
  | String c s' => String (lower_ascii c) (lower s')
  end.


(** [posixpath.basename]: [p[p.rfind('/') + 1:]], what follows the last
    slash (all of [p] when it has none). *)
Fixpoint basename (p : string) : string :=
  match p with
  | EmptyString => EmptyString
  | String c p' =>
      if Ascii.eqb c "/"%char then basename p'
      else if existsb (Ascii.eqb "/"%char) (list_ascii_of_string p') then basename p'
      else p
  end.

(** ** Data frames

    A cell of a frame read by [pd.read_csv]: a string, an integer (a column
    of numerals is read as integers) or a missing value. *)
Inductive cell : Type :=
| CStr (s : string)
| CInt (z : Z)
| CNaN.

#[global] Instance cell_eq_dec : EqDecision cell.
Proof. solve_decision. Defined.

(** [pd.read_csv(path, index_col='file_name')] of a two-column file: the
    [file_name] index and the one remaining column, in file order. *)
Abbreviation frame := (list (string * cell)).

(** A row of [my_data] once the [tag] column is set and the index is reset. *)
Record row : Type := Row {
  file_name : string;
  class_name : cell;
  tag : cell
}.

#[global] Instance row_eq_dec : EqDecision row.
Proof. solve_decision. Defined.

(** [series.get(key)] on a unique index; a label that is absent reindexes
    to [NaN]. *)
Fixpoint frame_lookup (key : string) (f : frame) : option cell :=
  match f with
  | [] => None
  | (k, v) :: f' => if String.eqb k key then Some v else frame_lookup key f'
  end.

(** [DataFrame._ensure_valid_index]: a frame whose index is empty takes the
    index of a non-empty value assigned to it, its own columns filled with
    [NaN]. *)
Definition ensure_valid_index (df value : frame) : frame :=
  match df, value with
  | [], _ :: _ => map (fun kv => (kv.1, CNaN)) value
  | _, _ => df
  end.

(** [_reindex_for_setitem]: the assigned column is used as it is when its
    index equals the frame's (or the frame is empty), otherwise it is
    reindexed on the frame's index, which pandas refuses for an index with
    duplicate labels. *)
Definition reindex_for_setitem (value df : frame) : result (list cell) :=
  if bool_decide (value.*1 = df.*1) || bool_decide (df = []) then Ok (value.*2)
  else if bool_decide (NoDup (value.*1)) then
    Ok (map (fun k => default CNaN (frame_lookup k value)) (df.*1))
  else Raise ValueError.

(** [my_data['tag'] = value; my_data = my_data.reset_index()]. *)
Definition set_tag (my_data value : frame) : result (list row) :=
  let df := ensure_valid_index my_data value in
  tags <- reindex_for_setitem value df ;;
  Ok (zip_with (fun kc t => Row kc.1 kc.2 t) df tags).

(** [my_data['tag'] == mode], cell by cell. *)
Definition tag_is (mode : string) (c : cell) : bool :=
  match c with
| CStr s => String.eqb s mode
  | _ => false
  end.

(** ** FlowerDataset *)

Section Notebook.

(** A decoded image, [PIL.Image.open] ([None]: the file cannot be opened
    or identified, an [OSError]) and Python's [int] on a string.  A
    transform is a callable of the caller, which may raise. *)
Context {Img : Type}.
Variable Image_open : string -> option Img.
Variable int_of_str : string -> option Z.

(** Torch: the value of a parameter tensor ([T]), a row of class scores
    ([Scores]), a loss tensor with its graph ([Loss]), the buffers of the
    network (batch-norm running statistics, [Buffers]) and the moments Adam
    keeps ([Moments]). *)
Context {T Scores Loss Buffers Moments : Type}.

Record FlowerDataset : Type := {
  mapping : option (gmap string Z);
  transform : option (Img -> result Img);
  mode : string;
  data : list row
}.

(** What [__getitem__] returns; [im_name] is there in test mode only. *)
Record Sample : Type := {
  im : Img;
  labels : Z;
  im_name : option string
}.

(** [FlowerDataset.__init__], from the two frames [pd.read_csv] returned.
    The two reads come first in the constructor and fail on a file that is
    missing or has no [file_name] column; what is modelled is what follows
    them, for files of the documented format. *)
Definition __init__ (annotations train_test_valid_split : frame)
    (mapping : option (gmap string Z)) (mode : string)
    (transform : option (Img -> result Img)) : result FlowerDataset :=
  my_data <- set_tag annotations train_test_valid_split ;;
  let my_data := filter (fun r => tag_is mode (tag r) = true) my_data in
  Ok {| mapping := mapping; transform := transform; mode := mode;
        data := my_data |}.

(** [__len__]. *)
Definition __len__ (self : FlowerDataset) : nat := length (data self).

(** [self.data.loc[idx, column]] on the range index of [self.data]. *)
Definition loc (self : FlowerDataset) (idx : nat) : result row :=
  of_option KeyError (data self !! idx).

(** [s.lower()] on a cell: only a string has the method. *)
Definition cell_lower (c : cell) : result string :=
  match c with
  | CStr s => Ok (lower s)
  | _ => Raise AttributeError
  end.

(** [int(c)] on a cell. *)
Definition cell_int (c : cell) : result Z :=
  match c with
  | CStr s => of_option ValueError (int_of_str s)
  | CInt z => Ok z
  | CNaN => Raise ValueError
  end.

(** [torch.as_tensor(labels, dtype=torch.long)]: an integer that does not
    fit in 64 bits is refused ([RuntimeError], an overflow). *)
Definition as_tensor (labels : Z) : result Z :=
  if ((- 2 ^ 63 <=? labels) && (labels <? 2 ^ 63))%Z then Ok labels
  else Raise RuntimeError.

(** [FlowerDataset.__getitem__].  The ids of a mapping are integers, on
    which [int] is the identity. *)
Definition __getitem__ (self : FlowerDataset) (idx : nat) : result Sample :=
  labels <- match mapping self with
            | Some m =>
                r <- loc self idx ;;
                key <- cell_lower (class_name r) ;;
                of_option KeyError (m !! key)
            | None =>
                r <- loc self idx ;;
                cell_int (class_name r)
            end ;;
  r <- loc self idx ;;
  let im_path := file_name r in
  label_tensor <- as_tensor labels ;;
  im <- of_option OSError (Image_open im_path) ;;
  im <- match transform self with
        | Some t => t im
        | None => Ok im
        end ;;
  if String.eqb (mode self) "test"%string then
    Ok {| im := im; labels := label_tensor; im_name := Some (file_name r) |}
  else
    Ok {| im := im; labels := label_tensor; im_name := None |}.

(** ** DataLoader *)

Record DataLoader : Type := {
  dataset : FlowerDataset;
  batch_size : nat;
  shuffle : bool
}.

(** A collated batch: the dictionary [default_collate] builds from the
    samples' dictionaries; [im_name] is a key only if the samples have it.
    The images of a batch are taken to be tensors of one shape, which
    [default_collate] stacks (it refuses anything else with a [TypeError] or
    a [RuntimeError], which is not modelled). *)
Record Batch : Type := {
  b_im : list Img;
  b_labels : list Z;
  b_im_name : option (list string)
}.

(** [BatchSampler.__iter__] with [drop_last=False]: indices are appended to
    [batch] (kept here in reverse, [k] its length) and the batch is yielded
    when it reaches [batch_size]; what is left at the end is yielded too. *)
Fixpoint batch_sampler (batch_size : nat) (batch : list nat) (k : nat)
    (sampler : list nat) : list (list nat) :=
  match sampler with
  | [] => match batch with [] => [] | _ :: _ => [rev batch] end
  | idx :: sampler' =>
      if (S k =? batch_size)%nat
      then rev (idx :: batch) :: batch_sampler batch_size [] 0 sampler'
      else batch_sampler batch_size (idx :: batch) (S k) sampler'
  end.

(** The order in which a pass visits the indices: [range(len(dataset))], or
    the permutation the random sampler drew for this pass. *)
Definition sampler (loader : DataLoader) (randperm : list nat) : list nat :=
  if shuffle loader then randperm else seq 0 (__len__ (dataset loader)).

Definition batches (loader : DataLoader) (randperm : list nat) : list (list nat) :=
  batch_sampler (batch_size loader) [] 0 (sampler loader randperm).

Fixpoint fetch_samples (ds : FlowerDataset) (indices : list nat)
  : result (list Sample) :=
  match indices with
  | [] => Ok []
  | idx :: indices' =>
      s <- __getitem__ ds idx ;;
      ss <- fetch_samples ds indices' ;;
      Ok (s :: ss)
  end.

Definition collate (samples : list Sample) : Batch :=
  {| b_im := map im samples;
     b_labels := map labels samples;
     b_im_name := mapM im_name samples |}.

(** One item of the loader's iterator: [collate([dataset[i] for i in indices])]. *)
Definition fetch (loader : DataLoader) (indices : list nat) : result Batch :=
  samples <- fetch_samples (dataset loader) indices ;;
  Ok (collate samples).

(** ** Python numbers

    A Python [float] is a binary64 number.  A count is converted exactly
    (the counts here, numbers of samples, are far below 2^53). *)
Definition float_of_nat (n : nat) : float :=
  PrimFloat.of_uint63 (Uint63.of_Z (Z.of_nat n)).

(** [x / n] for a float [x] and an int [n]. *)
Definition truediv (x : float) (n : nat) : result float :=
  match n with
  | O => Raise ZeroDivisionError
  | S _ => Ok (PrimFloat.div x (float_of_nat n))
  end.

(** [a / b] for two ints. *)
Definition int_truediv (a b : nat) : result float :=
  truediv (float_of_nat a) b.

(** ** The train / test split

    [round(x)] of a float is the integer nearest to [x], a tie going to the
    even one; it raises on a NaN ([ValueError]) and on an infinity
    ([OverflowError]), which is [None] here.  [len(im_list) * 0.8] is the
    binary64 product of the length, converted, and the literal. *)
Definition round_half_even (m : positive) (e : Z) : Z :=
  match e with
  | Zneg p =>
      let d := (2 ^ Zpos p)%Z in
      let q := (Zpos m / d)%Z in
      match (2 * (Zpos m mod d) ?= d)%Z with
      | Lt => q
      | Eq => if Z.even q then q else (q + 1)%Z
      | Gt => (q + 1)%Z
      end
  | _ => (Zpos m * 2 ^ e)%Z
  end.

Definition round (x : float) : option Z :=
  match Prim2SF x with
  | S754_zero _ => Some 0%Z
  | S754_finite s m e =>
      Some (if s then (- round_half_even m e)%Z else round_half_even m e)
  | S754_infinity _ | S754_nan => None
  end.

(** [l[a:b]]: a negative bound counts from the end, and both are clipped to
    the list. *)
Definition slice_index (n i : Z) : Z :=
  if (i <? 0)%Z then Z.max 0 (n + i) else Z.min i n.

Definition slice {A : Type} (l : list A) (a b : Z) : list A :=
  let n := Z.of_nat (length l) in
  let start := slice_index n a in
  let stop := slice_index n b in
  take (Z.to_nat (stop - start)) (drop (Z.to_nat start) l).

(** The literals [0.8] and [0.1]. *)
Definition train_share : float := 0x1.999999999999ap-1%float.
Definition valid_share : float := 0x1.999999999999ap-4%float.

(** [tags_dict] for the shuffled [im_list]. *)
Definition tags_dict (im_list : list string)
    : option (list (string * list string)) :=
  let len := float_of_nat (length im_list) in
  train_idx ← round (PrimFloat.mul len train_share);
  valid_len ← round (PrimFloat.mul len valid_share);
  test_len ← round (PrimFloat.mul len valid_share);
  let valid_idx := (train_idx + valid_len)%Z in
  let test_idx := (valid_idx + test_len)%Z in
  Some [("train"%string, slice im_list 0 train_idx);
        ("valid"%string, slice im_list train_idx valid_idx);
        ("test"%string, slice im_list valid_idx test_idx)].

(** ** The network, its parameters and the optimizer

    Parameters are objects shared by the network and the optimizer: they
    live in a store and are named by their position in it.  A parameter
    ([torch.nn.Parameter]) has its tensor, the gradient accumulated in
    [grad], the flag [requires_grad] that autograd reads, and the attribute
    [required_grad] once the freezing loop has set it. *)
Record Param : Type := {
  value : T;
  grad : option T;
  requires_grad : bool;
  required_grad : option bool
}.

Abbreviation store := (list Param).

(** The network: the parameters of the pretrained layers, those of
    [model.fc], the mode and the buffers. *)
Record Net : Type := {
  backbone : list nat;
  fc : list nat;
  training : bool;
  buffers : Buffers
}.

(** [optim.Adam]: the parameters it was given, its moments and the number
    of steps taken. *)
Record Optimizer : Type := {
  params : list nat;
  moments : Moments;
  steps : nat
}.

(** What the training and inference cells read and write. *)
Record World : Type := {
  heap : store;
  model : Net;
  optimizer : Optimizer
}.

(** [model(inputs)] from the parameter values and the buffers: in training
    mode the pass normalises over the batch and updates the buffers; in
    evaluation mode it only reads them, and the scores of an image depend on
    that image alone.  Then [nn.NLLLoss()] (the mean over the batch) and
    [loss.item()]; the gradient of a loss for each of [model.parameters()];
    the sum of two gradients; the Adam update of the values it is given
    with their gradients; [torch.max(row)[1]]; the initial moments. *)
Variable forward_train : list T -> Buffers -> list Img -> list Scores * Buffers.
Variable forward_eval : list T -> Buffers -> Img -> Scores.
Variable criterion : list Scores -> list Z -> Loss.
Variable item : Loss -> float.
Variable grad_of : Loss -> list T.
Variable tadd : T -> T -> T.
Variable adam : Moments -> list (T * option T) -> Moments * list T.
Variable argmax : Scores -> Z.
Variable adam_init : Moments.

(** [model.parameters()]: the head comes last. *)
Definition parameters (m : Net) : list nat := backbone m ++ fc m.

Definition values (h : store) (ps : list nat) : list T :=
  omap (fun a => value <$> h !! a) ps.

(** [param.required_grad = False]: a new attribute of the object; the
    attribute autograd reads is [requires_grad]. *)
Definition set_required_grad (p : Param) : Param :=
  {| value := value p; grad := grad p; requires_grad := requires_grad p;
     required_grad := Some false |}.

Definition set_grad (g : option T) (p : Param) : Param :=
  {| value := value p; grad := g; requires_grad := requires_grad p;
     required_grad := required_grad p |}.

Definition set_value (v : T) (p : Param) : Param :=
  {| value := v; grad := grad p; requires_grad := requires_grad p;
     required_grad := required_grad p |}.

(** A parameter of a new layer. *)
Definition new_parameter (v : T) : Param :=
  {| value := v; grad := None; requires_grad := true; required_grad := None |}.

(** [for param in model.parameters(): param.required_grad = False]. *)
Definition freeze (m : Net) (h : store) : store :=
  foldl (fun h a => alter set_required_grad a h) h (parameters m).

(** [model.fc = nn.Sequential(...)]: the parameters of the new layers are
    new objects, initialised to [head]. *)
Definition replace_fc (head : list T) (m : Net) (h : store) : Net * store :=
  ({| backbone := backbone m; fc := seq (length h) (length head);
      training := training m; buffers := buffers m |},
   h ++ map new_parameter head).

(** [optim.Adam(model.fc.parameters(), lr=0.001)]. *)
Definition Adam (ps : list nat) : Optimizer :=
  {| params := ps; moments := adam_init; steps := 0 |}.

(** The two cells that build the model and the optimizer, from the
    pretrained [resnet18]. *)
Definition setup (head : list T) (resnet18 : Net) (h : store) : World :=
  let h := freeze resnet18 h in
  let '(m, h) := replace_fc head resnet18 h in
  {| heap := h; model := m; optimizer := Adam (fc m) |}.

Definition set_training (b : bool) (m : Net) : Net :=
  {| backbone := backbone m; fc := fc m; training := b; buffers := buffers m |}.

Definition set_buffers (bufs : Buffers) (m : Net) : Net :=
  {| backbone := backbone m; fc := fc m; training := training m; buffers := bufs |}.

(** [outputs = model(inputs)]. *)
Definition call_model (w : World) (inputs : list Img) : list Scores * World :=
  let m := model w in
  let ps := values (heap w) (parameters m) in
  if training m then
    let '(outputs, bufs) := forward_train ps (buffers m) inputs in
    (outputs,
     {| heap := heap w; model := set_buffers bufs m; optimizer := optimizer w |})
  else (map (forward_eval ps (buffers m)) inputs, w).

(** [optimizer.zero_grad()]: the gradients of the optimizer's parameters
    are reset to [None]. *)
Definition zero_grad (w : World) : World :=
  {| heap := foldl (fun h a => alter (set_grad None) a h) (heap w)
               (params (optimizer w));
     model := model w; optimizer := optimizer w |}.

(** Autograd adds a gradient to the [grad] of a parameter that requires it. *)
Definition accumulate (g : T) (p : Param) : Param :=
  if requires_grad p
  then set_grad (Some match grad p with
                      | None => g
                      | Some g0 => tadd g0 g
                      end) p
  else p.

(** [loss.backward()]. *)
Definition backward (loss : Loss) (w : World) : World :=
  {| heap := foldl (fun h ag => alter (accumulate ag.2) ag.1 h) (heap w)
               (zip (parameters (model w)) (grad_of loss));
     model := model w; optimizer := optimizer w |}.

(** [optimizer.step()]. *)
Definition step (w : World) : World :=
  let o := optimizer w in
  let ps := omap (fun a => heap w !! a) (params o) in
  let '(mom, vs) := adam (moments o) (map (fun p => (value p, grad p)) ps) in
  {| heap := foldl (fun h av => alter (set_value av.2) av.1 h) (heap w)
               (zip (params o) vs);
     model := model w;
     optimizer := {| params := params o; moments := mom; steps := S (steps o) |} |}.

(** [model.train()] and [model.eval()]. *)
Definition train_mode (w : World) : World :=
  {| heap := heap w; model := set_training true (model w); optimizer := optimizer w |}.

Definition eval_mode (w : World) : World :=
  {| heap := heap w; model := set_training false (model w); optimizer := optimizer w |}.

(** ** The notebook's datasets and loaders

    A [DataLoader] is the record of its arguments.  With [shuffle=True] its
    constructor refuses a dataset without rows ([ValueError], from the
    random sampler): the training set is taken to have a row. *)

Variables train_dataset valid_dataset test_dataset : FlowerDataset.

Definition train_loader : DataLoader :=
  {| dataset := train_dataset; batch_size := 5; shuffle := true |}.

Definition val_loader : DataLoader :=
  {| dataset := valid_dataset; batch_size := 1; shuffle := false |}.

Definition test_loader : DataLoader :=
  {| dataset := test_dataset; batch_size := 1; shuffle := false |}.

(** [dataset_size['train']] and [dataset_size['valid']]. *)
Definition dataset_size_train : nat := __len__ train_dataset.
Definition dataset_size_valid : nat := __len__ valid_dataset.

(** ** The training loop *)

(** The body of the loop over [train_data_loader], up to [optimizer.step()],
    with the value of [loss.item()]. *)
Definition train_batch (w : World) (data : Batch) : World * float :=
  let inputs := b_im data in
  let labels := b_labels data in
  let '(outputs, w) := call_model w inputs in
  let w := zero_grad w in
  let loss := criterion outputs labels in
  let w := backward loss w in
  let w := step w in
  (w, item loss).

(** One iteration: the loader fetches the batch, the body runs, and
    [training_loss += loss.item()]. *)
Definition train_iteration (s : World * float) (indices : list nat)
  : result (World * float) :=
  data <- fetch train_loader indices ;;
  let '(w, l) := train_batch s.1 data in
  Ok (w, PrimFloat.add s.2 l).

(** From [model.train()] to [epoch_loss], the value printed as the
    training loss. *)
Definition train_phase (randperm : list nat) (w : World) : result (World * float) :=
  let w := train_mode w in
  let training_loss := 0%float in
  s <- for_each train_iteration (batches train_loader randperm) (w, training_loss) ;;
  epoch_loss <- truediv s.2 dataset_size_train ;;
  Ok (s.1, epoch_loss).

(** The counters of the validation step. *)
Record Counters : Type := {
  total : nat;
  correct_preds : nat;
  validation : float
}.

(** [(index == labels).sum().item()]. *)
Definition count_correct (index labels : list Z) : nat :=
  length (filter (fun il => il.1 = il.2) (zip index labels)).

(** [_, index = torch.max(outputs, 1)]. *)
Definition max_index (outputs : list Scores) : list Z := map argmax outputs.

(** The body of the loop over [valid_data_loader]. *)
Definition valid_batch (w : World) (c : Counters) (data : Batch) : World * Counters :=
  let inputs := b_im data in
  let labels := b_labels data in
  let '(outputs, w) := call_model w inputs in
  let val_loss := criterion outputs labels in
  let index := max_index outputs in
  (w, {| total := total c + length labels;
         correct_preds := correct_preds c + count_correct index labels;
         validation := PrimFloat.add (validation c) (item val_loss) |}).

Definition valid_iteration (s : World * Counters) (indices : list nat)
  : result (World * Counters) :=
  data <- fetch val_loader indices ;;
  Ok (valid_batch s.1 s.2 data).

(** The validation step: the printed validation loss and accuracy. *)
Definition valid_phase (w : World) : result (World * (float * float)) :=
  let w := eval_mode w in
  let c := {| total := 0; correct_preds := 0; validation := 0%float |} in
  s <- for_each valid_iteration (batches val_loader []) (w, c) ;;
  r <- int_truediv (correct_preds s.2) (total s.2) ;;
  let val_acc := PrimFloat.mul 100%float r in
  validation_loss <- truediv (validation s.2) dataset_size_valid ;;
  Ok (s.1, (validation_loss, val_acc)).

(** What one epoch prints. *)
Record Report : Type := {
  epoch_loss : float;
  validation_loss : float;
  val_acc : float
}.

(** The body of [for epoch in range(num_epochs)]; [randperm epoch] is the
    order the shuffling loader draws in that epoch. *)
Definition epoch_body (randperm : nat -> list nat) (s : World * list Report)
    (epoch : nat) : result (World * list Report) :=
  t <- train_phase (randperm epoch) s.1 ;;
  v <- valid_phase t.1 ;;
  Ok (v.1, s.2 ++ [{| epoch_loss := t.2; validation_loss := v.2.1;
                      val_acc := v.2.2 |}]).

Definition training_loop (num_epochs : nat) (randperm : nat -> list nat)
    (w : World) : result (World * list Report) :=
  for_each (epoch_body randperm) (seq 0 num_epochs) (w, []).

(** ** The inference pass *)

Definition cat_to_index : gmap Z string :=
  list_to_map [(0%Z, "Pink Primrose"%string);
               (1%Z, "Hard-leaved Pocket Orchid"%string);
               (2%Z, "Canterbury Bells"%string)].

(** [d[k] = v] on a Python dictionary, which keeps insertion order: a key
    already there keeps its place and takes the new value. *)
Fixpoint dict_set (k v : string) (d : list (string * string)) : list (string * string) :=
  match d with
  | [] => [(k, v)]
  | (k', v') :: d' =>
      if String.eqb k' k then (k, v) :: d' else (k', v') :: dict_set k v d'
  end.

(** [index.item()]: only a tensor of one element converts to a scalar. *)
Definition tensor_item (index : list Z) : result Z :=
  match index with
  | [i] => Ok i
  | _ => Raise ValueError
  end.

Record Predictions : Type := {
  p_total : nat;
  p_correct_preds : nat;
  pred_list : list (string * string)
}.

(** The body of the loop over [test_data_loader]. *)
Definition infer_batch (w : World) (p : Predictions) (data : Batch)
  : result (World * Predictions) :=
  let single_im := b_im data in
  let label := b_labels data in
  im_name <- of_option KeyError (b_im_name data) ;;
  let '(pred, w) := call_model w single_im in
  let index := max_index pred in
  let total := p_total p + length label in
  let correct_preds := p_correct_preds p + count_correct index label in
  i <- tensor_item index ;;
  cls <- of_option KeyError (cat_to_index !! i) ;;
  name <- of_option IndexError (head im_name) ;;
  Ok (w, {| p_total := total; p_correct_preds := correct_preds;
            pred_list := dict_set (basename name) cls (pred_list p) |}).

Definition infer_iteration (s : World * Predictions) (indices : list nat)
  : result (World * Predictions) :=
  data <- fetch test_loader indices ;;
  infer_batch s.1 s.2 data.

(** The inference cell: the rows written to [model_predictions.csv] (the
    file_name and class_name columns of [df]), then the accuracy printed,
    which is computed after the file is written. *)
Definition inference (w : World) : result (list (string * string) * result float) :=
  let w := eval_mode w in
  let p := {| p_total := 0; p_correct_preds := 0; pred_list := [] |} in
  s <- for_each infer_iteration (batches test_loader []) (w, p) ;;
  let df := pred_list s.2 in
  Ok (df, r <- int_truediv (p_correct_preds s.2) (p_total s.2) ;;
          Ok (PrimFloat.mul 100%float r)).

(** ** Notions the statements use *)

(** The tag column of the joined frame. *)
Definition joined (annotations splits : frame) : list row :=
  map (fun kc => Row kc.1 kc.2 (default CNaN (frame_lookup kc.1 splits))) annotations.

(** The class mapping of the lookup scenario. *)
Definition flower_mapping : gmap string Z :=
  list_to_map [("pink primrose"%string, 0%Z);
               ("hard-leaved pocket orchid"%string, 1%Z);
               ("canterbury bells"%string, 2%Z)].

(** All the batches of a pass, when every one of them can be fetched. *)
Fixpoint fetch_all (loader : DataLoader) (chunks : list (list nat))
  : result (list Batch) :=
  match chunks with
  | [] => Ok []
  | indices :: chunks' =>
      b <- fetch loader indices ;;
      bs <- fetch_all loader chunks' ;;
      Ok (b :: bs)
  end.

(** The value of [loss.item()] for a batch, in the world the batch meets. *)
Definition batch_loss (w : World) (data : Batch) : float :=
  item (criterion (call_model w (b_im data)).1 (b_labels data)).

(** The values of [loss.item()] over a pass, each batch met in the world
    the batches before it left. *)
Fixpoint batch_losses (w : World) (bs : list Batch) : list float :=
  match bs with
  | [] => []
  | b :: bs' => batch_loss w b :: batch_losses (train_batch w b).1 bs'
  end.

(** In evaluation mode: the scores of an image, its arg-max class, and the
    loss of the batch made of one sample. *)
Definition scores (w : World) (img : Img) : Scores :=
  forward_eval (values (heap w) (parameters (model w))) (buffers (model w)) img.

Definition predict (w : World) (img : Img) : Z := argmax (scores w img).


(** What a computation leaves alone: the optimizer keeps its parameters,
    and a parameter that is not one of them keeps its value. *)
Definition keeps_others (w w' : World) : Prop :=
  params (optimizer w') = params (optimizer w)
  /\ forall a, a ∉ params (optimizer w) ->
       value <$> heap w' !! a = value <$> heap w !! a.

(** The steps in the order the specification lists them: forward pass,
    loss, zeroing of the gradients, backpropagation, one optimizer step. *)
Definition train_batch_spec (w : World) (data : Batch) : World * float :=
  let '(outputs, w) := call_model w (b_im data) in
  let loss := criterion outputs (b_labels data) in
  let w := zero_grad w in
  let w := backward loss w in
  let w := step w in
  (w, item loss).

(** The loss tensor of a batch and the world on which [optimizer.step()]
    runs for it. *)
Definition batch_loss_tensor (w : World) (data : Batch) : Loss :=
  criterion (call_model w (b_im data)).1 (b_labels data).

Definition before_step (w : World) (data : Batch) : World :=
  backward (batch_loss_tensor w data) (zero_grad (call_model w (b_im data)).2).

(** The optimizer holds the parameters of [model.fc], the parameters of the
    network are distinct objects of the store, and those of [model.fc]
    require a gradient. *)
Definition wf_world (w : World) : Prop :=
  params (optimizer w) = fc (model w)
  /\ NoDup (parameters (model w))
  /\ forall a, a ∈ fc (model w) ->
       exists p, heap w !! a = Some p /\ requires_grad p = true.

(** [pred_list[kv.1] = kv.2]. *)
Definition write (d : list (string * string)) (kv : string * string)
  : list (string * string) := dict_set kv.1 kv.2 d.

(** The image [__getitem__] returns for a row. *)
Definition row_image (self : FlowerDataset) (r : row) : option Img :=
  match Image_open (file_name r) with
  | Some im =>
      match transform self with
      | Some t => match t im with Ok im' => Some im' | Raise _ => None end
      | None => Some im
      end
  | None => None
  end.

(** The key under which the pass files a row. *)
Definition key (r : row) : string := basename (file_name r).

(** What the pass writes for a row of the test index: under the basename of
    its file_name, the name [cat_to_index] gives the arg-max class of its
    image. *)
Definition records (w : World) (r : row) (kv : string * string) : Prop :=
  kv.1 = key r
  /\ exists img, row_image test_dataset r = Some img
       /\ cat_to_index !! predict w img = Some kv.2.

(** As the specification words the class name of a prediction: the inverse
    of the class mapping applied to the class id, or the id itself when
    there is no mapping. *)
Definition inverse (m : gmap string Z) (id : Z) : option string :=
  (fun x => x.2.1) <$> list_find (fun kv => kv.2 = id) (map_to_list m).

Definition spec_class_name (mapping : option (gmap string Z)) (id : Z)
  : option string :=
  match mapping with
  | Some m => inverse m id
  | None => Some (pretty id)
  end.

(** ** Results on data frames *)

Lemma tag_is_true (mode : string) (c : cell) :
  tag_is mode c = true <-> c = CStr mode.
Proof.
  destruct c as [s| |]; simpl; try (split; [discriminate | congruence]).
  rewrite String.eqb_eq. split; congruence.
Qed.

Lemma frame_lookup_None (k : string) (f : frame) :
  k ∉ f.*1 -> frame_lookup k f = None.
Proof.
  induction f as [|[k' v] f IH]; simpl; [done|].
  intros Hk. apply not_elem_of_cons in Hk as [Hne Hk].
  destruct (String.eqb_spec k' k) as [->|_]; [done | auto].
Qed.

Lemma frame_lookup_Some (k : string) (v : cell) (f : frame) :
  NoDup (f.*1) -> frame_lookup k f = Some v <-> (k, v) ∈ f.
Proof.
  induction f as [|[k' v'] f IH]; simpl.
  - intros _. split; [discriminate | intros H; inversion H].
  - intros Hnd. apply NoDup_cons in Hnd as [Hk' Hnd].
    destruct (String.eqb_spec k' k) as [->|Hne].
    + split.
      * intros [= ->]. left.
      * intros Hin. apply elem_of_cons in Hin as [[= ->]|Hin]; [done|].
        exfalso. apply Hk'. apply list_elem_of_fmap. by exists (k, v).
    + rewrite IH by done. split.
      * intros Hin. by right.
      * intros Hin. apply elem_of_cons in Hin as [[= -> ->]|Hin]; done.
Qed.

(** On a unique index, taking the column as it is and reindexing it on its
    own index agree. *)
Lemma reindex_self (f : frame) :
  NoDup (f.*1) -> map (fun k => default CNaN (frame_lookup k f)) (f.*1) = f.*2.
Proof.
  induction f as [|[k v] f IH]; simpl; [done|].
  intros Hnd. apply NoDup_cons in Hnd as [Hk Hnd].
  rewrite String.eqb_refl. simpl. f_equal.
  transitivity (map (fun k => default CNaN (frame_lookup k f)) (f.*1));
    [|exact (IH Hnd)].
  apply map_ext_in. intros k' Hin. apply list_elem_of_In in Hin.
  destruct (String.eqb_spec k k') as [->|_]; done.
Qed.

Lemma zip_with_row_map (df : frame) (g : string -> cell) :
  zip_with (fun kc t => Row kc.1 kc.2 t) df (map g (df.*1))
  = map (fun kc => Row kc.1 kc.2 (g kc.1)) df.
Proof. induction df as [|[k c] df IH]; simpl; [done | f_equal; exact IH]. Qed.

(** A table of annotations with at least one row is left-joined with a
    table of tags whose index is unique. *)
Lemma set_tag_joined (annotations splits : frame) :
  annotations <> [] -> NoDup (splits.*1) ->
  set_tag annotations splits = Ok (joined annotations splits).
Proof.
  intros Hne Hnd. unfold set_tag, joined.
  assert (Hdf : ensure_valid_index annotations splits = annotations).
  { destruct annotations; [done|]. by destruct splits. }
  rewrite Hdf. unfold reindex_for_setitem.
  rewrite (bool_decide_eq_false_2 (annotations = [])) by done.
  rewrite orb_false_r. case_bool_decide as Heq; simpl.
  - f_equal. rewrite <- reindex_self by done. rewrite Heq.
    apply zip_with_row_map.
  - rewrite bool_decide_eq_true_2 by done. simpl. f_equal.
    apply zip_with_row_map.
Qed.





(** C5: a row of the annotations whose file_name has no row in the tags
    table gets no tag (its tag is [NaN] in the joined frame), and no row of
    the index built for any requested split has its file_name; the index is
    built whenever the tags table has a unique index. *)
Theorem unmatched_annotation_excluded (annotations splits : frame)
    (mapping : option (gmap string Z)) (mode : string)
    (transform : option (Img -> result Img)) (k : string) (c : cell) :
  (k, c) ∈ annotations -> k ∉ splits.*1 ->
  (forall ds, __init__ annotations splits mapping mode transform = Ok ds ->
     (exists rows, set_tag annotations splits = Ok rows
        /\ forall r, r ∈ rows -> file_name r = k -> tag r = CNaN)
     /\ forall r, r ∈ data ds -> file_name r <> k)
  /\ (NoDup (splits.*1) ->
      exists ds, __init__ annotations splits mapping mode transform = Ok ds).
Proof.
  intros Hin Hk.
  assert (Hne : annotations <> []) by (intros ->; inversion Hin).
  assert (Hdf : ensure_valid_index annotations splits = annotations).
  { destruct annotations; [done|]. by destruct splits. }
  assert (Hkeys : splits.*1 <> annotations.*1).
  { intros Heq. apply Hk. rewrite Heq. apply list_elem_of_fmap. by exists (k, c). }
  assert (Hrows : forall rows, set_tag annotations splits = Ok rows ->
            rows = joined annotations splits).
  { intros rows. unfold set_tag, reindex_for_setitem. rewrite Hdf.
    rewrite (bool_decide_eq_false_2 (splits.*1 = annotations.*1)) by done.
    rewrite (bool_decide_eq_false_2 (annotations = [])) by done. simpl.
    case_bool_decide; simpl; [|discriminate].
    intros [= <-]. apply zip_with_row_map. }
  assert (Htag : forall r, r ∈ joined annotations splits -> file_name r = k ->
            tag r = CNaN).
  { intros r Hr Hf. apply list_elem_of_fmap in Hr as [[k' c'] [-> _]].
    simpl in *. subst k'. by rewrite frame_lookup_None. }
  split.
  - intros ds. unfold __init__.
    destruct (set_tag annotations splits) as [rows|e] eqn:Hset; simpl; [|discriminate].
    intros [= <-]. simpl. pose proof (Hrows rows eq_refl) as ->. split.
    + eexists. split; [reflexivity | exact Htag].
    + intros r Hr Hf. apply list_elem_of_filter in Hr as [Hr Hj].
      rewrite (Htag r Hj Hf) in Hr. discriminate.
  - intros Hs. unfold __init__. rewrite set_tag_joined by done. simpl. by eexists.
Qed.

(** ** Results on item access *)




(** What [__getitem__] does once the label is resolved. *)
Lemma getitem_from_label (self : FlowerDataset) (idx : nat) (r : row) :
  data self !! idx = Some r ->
  __getitem__ self idx =
    (labels <- match mapping self with
               | Some m =>
                   key <- cell_lower (class_name r) ;;
                   of_option KeyError (m !! key)
               | None => cell_int (class_name r)
               end ;;
     label_tensor <- as_tensor labels ;;
     im <- of_option OSError (Image_open (file_name r)) ;;
     im <- match transform self with Some t => t im | None => Ok im end ;;
     Ok {| im := im; labels := label_tensor;
           im_name := if String.eqb (mode self) "test" then Some (file_name r)
                      else None |}).
Proof.
  intros Hr. unfold __getitem__, loc. rewrite Hr. simpl.
  destruct (mapping self) as [m|]; simpl.
  - destruct (cell_lower (class_name r)) as [k|]; simpl; [|done].
    destruct (m !! k) as [v|]; simpl; [|done].
    destruct (as_tensor v); simpl; [|done].
    destruct (Image_open (file_name r)) as [img|]; simpl; [|done].
    destruct (match transform self with Some t => t img | None => Ok img end);
      simpl; [|done].
    by destruct (String.eqb (mode self) "test").
  - destruct (cell_int (class_name r)) as [v|]; simpl; [|done].
    destruct (as_tensor v); simpl; [|done].
    destruct (Image_open (file_name r)) as [img|]; simpl; [|done].
    destruct (match transform self with Some t => t img | None => Ok img end);
      simpl; [|done].
    by destruct (String.eqb (mode self) "test").
Qed.

(** [__getitem__] with a mapping, on a row whose class name is a string. *)
Lemma getitem_with_mapping (self : FlowerDataset) (m : gmap string Z)
    (idx : nat) (r : row) (s : string) :
  mapping self = Some m -> data self !! idx = Some r -> class_name r = CStr s ->
  __getitem__ self idx =
    (labels <- of_option KeyError (m !! lower s) ;;
     label_tensor <- as_tensor labels ;;
     im <- of_option OSError (Image_open (file_name r)) ;;
     im <- match transform self with Some t => t im | None => Ok im end ;;
     Ok {| im := im; labels := label_tensor;
           im_name := if String.eqb (mode self) "test" then Some (file_name r)
                      else None |}).
Proof.
  intros Hm Hr Hc. rewrite (getitem_from_label self idx r Hr), Hm, Hc. done.
Qed.


(** ** Results on the training loop *)

Lemma train_batch_loss (w : World) (data : Batch) :
  (train_batch w data).2 = batch_loss w data.
Proof.
  unfold train_batch, batch_loss.
  by destruct (call_model w (b_im data)) as [outputs w1].
Qed.

Lemma train_iterations (chunks : list (list nat)) (bs : list Batch)
    (w : World) (training_loss : float) :
  fetch_all train_loader chunks = Ok bs ->
  for_each train_iteration chunks (w, training_loss)
  = Ok (foldl (fun w b => (train_batch w b).1) w bs,
        fold_left PrimFloat.add (batch_losses w bs) training_loss).
Proof.
  revert bs w training_loss.
  induction chunks as [|indices chunks IH]; intros bs w tl; simpl.
  - by intros [= <-].
  - unfold train_iteration at 1.
    destruct (fetch train_loader indices) as [b|e]; simpl; [|discriminate].
    destruct (fetch_all train_loader chunks) as [bs'|e]; simpl; [|discriminate].
    intros [= <-]. simpl. rewrite <- train_batch_loss.
    destruct (train_batch w b) as [w1 l]. simpl. by apply IH.
Qed.

(** C3: when the batches of the epoch can be fetched and the training set
    is not empty, the training loss the epoch reports is the sum, batch
    after batch from 0.0, of the per-batch values [loss.item()], divided by
    the number of training samples [len(train_dataset)]. *)
Theorem training_loss_reported (randperm : list nat) (w : World) (bs : list Batch) :
  fetch_all train_loader (batches train_loader randperm) = Ok bs ->
  __len__ train_dataset <> 0 ->
  exists w',
    train_phase randperm w
    = Ok (w', PrimFloat.div
                (fold_left PrimFloat.add (batch_losses (train_mode w) bs) 0%float)
                (float_of_nat (__len__ train_dataset))).
Proof.
  intros Hbs Hn. unfold train_phase.
  rewrite (train_iterations _ bs) by done. simpl.
  unfold dataset_size_train, truediv.
  destruct (__len__ train_dataset); [done|]. simpl. by eexists.
Qed.

(** ** Results on the validation step *)

Lemma batch_sampler_one (l : list nat) :
  batch_sampler 1 [] 0 l = map (fun i => [i]) l.
Proof. induction l as [|i l IH]; simpl; [done | by rewrite IH]. Qed.


Lemma call_model_eval (w : World) (inputs : list Img) :
  training (model w) = false ->
  call_model w inputs = (map (scores w) inputs, w).
Proof. intros Ht. unfold call_model, scores. by rewrite Ht. Qed.




(** The accuracy is [100 * (correct_preds / total)]: the quotient is rounded
    before it is multiplied.  With 7 correct samples of 25 the loop reports
    28.000000000000004, where [(100 * 7) / 25] is 28. *)
Remark accuracy_quotient_first :
  (r <- int_truediv 7 25 ;; Ok (PrimFloat.mul 100%float r))
  = Ok 0x1.c000000000001p+4%float
  /\ truediv (PrimFloat.mul 100%float (float_of_nat 7)) 25 = Ok 28%float.
Proof. split; vm_compute; reflexivity. Qed.

(** ** Results on the parameter store *)

Section Alter.

Context {X : Type} (key : X -> nat) (f : X -> Param -> Param).

Lemma foldl_alter_notin (l : list X) (h : store) (a : nat) :
  a ∉ map key l ->
  foldl (fun h x => alter (f x) (key x) h) h l !! a = h !! a.
Proof.
  revert h. induction l as [|x l IH]; intros h Ha; simpl; [done|].
  simpl in Ha. apply not_elem_of_cons in Ha as [Hne Ha].
  rewrite IH by done. by apply list_lookup_alter_ne.
Qed.

Lemma foldl_alter_in (l : list X) (h : store) (x : X) :
  NoDup (map key l) -> x ∈ l ->
  foldl (fun h x => alter (f x) (key x) h) h l !! key x = f x <$> h !! key x.
Proof.
  revert h. induction l as [|y l IH]; intros h Hnd Hx; simpl; [inversion Hx|].
  simpl in Hnd. apply NoDup_cons in Hnd as [Hy Hnd].
  apply elem_of_cons in Hx as [->|Hx].
  - rewrite foldl_alter_notin by done. apply list_lookup_alter_eq.
  - rewrite IH by done. rewrite list_lookup_alter_ne; [done|].
    intros Heq. apply Hy. rewrite Heq. apply list_elem_of_fmap. by exists x.
Qed.

Lemma foldl_alter_value (l : list X) (h : store) (a : nat) :
  (forall x p, value (f x p) = value p) ->
  value <$> foldl (fun h x => alter (f x) (key x) h) h l !! a = value <$> h !! a.
Proof.
  intros Hf. revert h. induction l as [|x l IH]; intros h; simpl; [done|].
  rewrite IH. destruct (decide (key x = a)) as [<-|Hne].
  - rewrite list_lookup_alter_eq. destruct (h !! key x); simpl; [|done].
    by rewrite Hf.
  - by rewrite list_lookup_alter_ne.
Qed.

Lemma foldl_alter_length (l : list X) (h : store) :
  length (foldl (fun h x => alter (f x) (key x) h) h l) = length h.
Proof.
  revert h. induction l as [|x l IH]; intros h; simpl; [done|].
  by rewrite IH, length_alter.
Qed.

Lemma foldl_alter_pres (Q : Param -> Prop) (l : list X) (h : store) (a : nat) :
  (forall x p, Q p -> Q (f x p)) ->
  (exists p, h !! a = Some p /\ Q p) ->
  exists p, foldl (fun h x => alter (f x) (key x) h) h l !! a = Some p /\ Q p.
Proof.
  intros Hf. revert h. induction l as [|x l IH]; intros h [p [Hp HQ]]; simpl.
  - by exists p.
  - apply IH. destruct (decide (key x = a)) as [<-|Hne].
    + exists (f x p). rewrite list_lookup_alter_eq, Hp. split; [done | by apply Hf].
    + exists p. by rewrite list_lookup_alter_ne.
Qed.

End Alter.

Lemma keeps_others_refl (w : World) : keeps_others w w.
Proof. by split. Qed.

Lemma keeps_others_trans (w1 w2 w3 : World) :
  keeps_others w1 w2 -> keeps_others w2 w3 -> keeps_others w1 w3.
Proof.
  intros [Hp1 Hv1] [Hp2 Hv2]. split; [congruence|].
  intros a Ha. rewrite Hv2 by (by rewrite Hp1). by apply Hv1.
Qed.

Lemma call_model_keeps (w : World) (inputs : list Img) :
  keeps_others w (call_model w inputs).2.
Proof.
  unfold call_model. destruct (training (model w)); [|apply keeps_others_refl].
  destruct (forward_train _ _ _). by split.
Qed.

Lemma zero_grad_keeps (w : World) : keeps_others w (zero_grad w).
Proof.
  split; [done|]. intros a _. unfold zero_grad. simpl.
  by apply (foldl_alter_value (fun a => a) (fun _ => set_grad None)).
Qed.

Lemma backward_keeps (loss : Loss) (w : World) : keeps_others w (backward loss w).
Proof.
  split; [done|]. intros a _. unfold backward. simpl.
  apply (foldl_alter_value (fun ag => ag.1) (fun ag => accumulate ag.2)).
  intros x p. unfold accumulate. by destruct (requires_grad p).
Qed.

Lemma step_keeps (w : World) : keeps_others w (step w).
Proof.
  unfold step. destruct (adam _ _) as [mom vs]. split; [done|].
  intros a Ha. simpl. f_equal.
  apply (foldl_alter_notin (fun av => av.1) (fun av => set_value av.2)).
  intros Hin. apply Ha. apply list_elem_of_fmap in Hin as [[a' v] [-> Hin]].
  by apply elem_of_zip_l in Hin.
Qed.

Lemma train_batch_keeps (w : World) (data : Batch) :
  keeps_others w (train_batch w data).1.
Proof.
  unfold train_batch.
  pose proof (call_model_keeps w (b_im data)) as H1.
  destruct (call_model w (b_im data)) as [outputs w1]. simpl in *.
  eapply keeps_others_trans; [exact H1|].
  eapply keeps_others_trans; [apply zero_grad_keeps|].
  eapply keeps_others_trans; [apply backward_keeps|]. apply step_keeps.
Qed.

(** A loop keeps what each of its iterations keeps. *)
Lemma for_each_keeps {A S : Type} (proj : S -> World) (body : S -> A -> result S) :
  (forall s x s', body s x = Ok s' -> keeps_others (proj s) (proj s')) ->
  forall xs s s', for_each body xs s = Ok s' -> keeps_others (proj s) (proj s').
Proof.
  intros Hbody. induction xs as [|x xs IH]; intros s s'; simpl.
  - intros [= <-]. apply keeps_others_refl.
  - destruct (body s x) as [s1|e] eqn:Hb; simpl; [|discriminate].
    intros Hrest. eapply keeps_others_trans; [by eapply Hbody | by apply IH].
Qed.

Lemma train_phase_keeps (randperm : list nat) (w : World) (r : World * float) :
  train_phase randperm w = Ok r -> keeps_others w r.1.
Proof.
  unfold train_phase.
  destruct (for_each _ _ _) as [s|e] eqn:Hloop; simpl; [|discriminate].
  destruct (truediv _ _); simpl; [|discriminate]. intros [= <-]. simpl.
  apply (for_each_keeps fst) in Hloop; [exact Hloop|].
  intros [w0 l0] indices s'. unfold train_iteration.
  destruct (fetch _ _) as [data|]; simpl; [|discriminate].
  pose proof (train_batch_keeps w0 data) as Hk.
  destruct (train_batch w0 data). by intros [= <-].
Qed.

Lemma valid_phase_keeps (w : World) (r : World * (float * float)) :
  valid_phase w = Ok r -> keeps_others w r.1.
Proof.
  unfold valid_phase.
  destruct (for_each _ _ _) as [s|e] eqn:Hloop; simpl; [|discriminate].
  destruct (int_truediv _ _); simpl; [|discriminate].
  destruct (truediv _ _); simpl; [|discriminate]. intros [= <-]. simpl.
  apply (for_each_keeps fst) in Hloop; [exact Hloop|].
  intros [w0 c0] indices s'. unfold valid_iteration.
  destruct (fetch _ _) as [data|]; simpl; [|discriminate].
  intros [= <-]. unfold valid_batch.
  pose proof (call_model_keeps w0 (b_im data)) as Hk.
  by destruct (call_model w0 (b_im data)).
Qed.

Lemma training_loop_keeps (num_epochs : nat) (randperm : nat -> list nat)
    (w : World) (r : World * list Report) :
  training_loop num_epochs randperm w = Ok r -> keeps_others w r.1.
Proof.
  unfold training_loop. intros Hloop.
  apply (for_each_keeps fst) in Hloop; [exact Hloop|].
  intros [w0 reports] epoch s'. unfold epoch_body. simpl.
  destruct (train_phase _ _) as [t|] eqn:Ht; simpl; [|discriminate].
  destruct (valid_phase _) as [v|] eqn:Hv; simpl; [|discriminate].
  intros [= <-]. simpl.
  eapply keeps_others_trans; [by apply train_phase_keeps in Ht|].
  by apply valid_phase_keeps in Hv.
Qed.

(** C6: whatever the number of epochs, a parameter that is not one of the
    new head [model.fc] has after the training loop the value it had before
    it; in particular every parameter of the pretrained backbone still has
    its pretrained value. *)
Theorem backbone_unchanged (head : list T) (resnet18 : Net) (h : store)
    (num_epochs : nat) (randperm : nat -> list nat) (w' : World)
    (reports : list Report) :
  Forall (fun a => a < length h) (backbone resnet18) ->
  training_loop num_epochs randperm (setup head resnet18 h) = Ok (w', reports) ->
  (forall a, a ∉ fc (model (setup head resnet18 h)) ->
     value <$> heap w' !! a = value <$> heap (setup head resnet18 h) !! a)
  /\ (forall a, a ∈ backbone resnet18 -> value <$> heap w' !! a = value <$> h !! a).
Proof.
  intros Hwf Hloop. apply training_loop_keeps in Hloop as [_ Hkeep].
  simpl in Hkeep. split; [exact Hkeep|].
  intros a Ha. rewrite Forall_forall in Hwf. specialize (Hwf a Ha).
  rewrite Hkeep.
  - unfold setup, replace_fc, freeze. simpl.
    rewrite lookup_app_l
      by (rewrite (foldl_alter_length (fun a => a) (fun _ => set_required_grad));
          done).
    by apply (foldl_alter_value (fun a => a) (fun _ => set_required_grad)).
  - unfold setup, replace_fc, freeze. simpl.
    rewrite (foldl_alter_length (fun a => a) (fun _ => set_required_grad)).
    rewrite elem_of_seq. lia.
Qed.

(** ** Results on the steps of a training batch *)

Lemma train_batch_before_step (w : World) (data : Batch) :
  train_batch w data = (step (before_step w data), batch_loss w data).
Proof.
  unfold train_batch, before_step, batch_loss, batch_loss_tensor.
  by destruct (call_model w (b_im data)) as [outputs w1].
Qed.

Lemma call_model_same (w : World) (inputs : list Img) :
  let w1 := (call_model w inputs).2 in
  heap w1 = heap w /\ optimizer w1 = optimizer w
  /\ backbone (model w1) = backbone (model w) /\ fc (model w1) = fc (model w).
Proof.
  unfold call_model. destruct (training (model w)); [|done].
  by destruct (forward_train _ _ _).
Qed.

Lemma NoDup_zip_fst {B : Type} (l : list nat) (k : list B) :
  NoDup l -> NoDup (map (fun ab : nat * B => ab.1) (zip l k)).
Proof.
  revert k. induction l as [|a l IH]; intros k Hnd; simpl; [constructor|].
  apply NoDup_cons in Hnd as [Ha Hnd]. destruct k as [|b k]; simpl; [constructor|].
  apply NoDup_cons. split; [|by apply IH].
  intros Hin. apply Ha. apply list_elem_of_fmap in Hin as [[a' b'] [-> Hin]].
  by apply elem_of_zip_l in Hin.
Qed.

(** When [optimizer.step()] runs, a parameter of the head holds the
    gradient of the loss of the current batch, and nothing else. *)
Lemma before_step_grad (w : World) (data : Batch) (i a : nat) (g : T) :
  wf_world w ->
  fc (model w) !! i = Some a ->
  grad_of (batch_loss_tensor w data) !! (length (backbone (model w)) + i) = Some g ->
  grad <$> heap (before_step w data) !! a = Some (Some g).
Proof.
  intros (Hparams & Hnd & Hreq) Ha Hg. unfold before_step.
  set (loss := batch_loss_tensor w data) in *.
  destruct (call_model_same w (b_im data)) as (Hh & Ho & Hb & Hf).
  set (w1 := (call_model w (b_im data)).2) in *.
  assert (Hin : a ∈ fc (model w)) by (by eapply list_elem_of_lookup_2).
  destruct (Hreq a Hin) as [p [Hp Hrg]].
  assert (Hnd_fc : NoDup (fc (model w))) by (by apply NoDup_app in Hnd as (_ & _ & ?)).
  assert (Hz : heap (zero_grad w1) !! a = Some (set_grad None p)).
  { unfold zero_grad. simpl. rewrite Ho, Hparams, Hh.
    rewrite (foldl_alter_in (fun a => a) (fun _ => set_grad None) _ _ a);
      [by rewrite Hp | by rewrite map_id | done]. }
  unfold backward. simpl. unfold parameters. rewrite Hb, Hf.
  assert (Hzip : (a, g) ∈ zip (backbone (model w) ++ fc (model w)) (grad_of loss)).
  { apply (list_elem_of_lookup_2 _ (length (backbone (model w)) + i)).
    apply lookup_zip_with_Some. exists a, g. split; [done|]. split; [|done].
    rewrite lookup_app_r by lia.
    by replace (length (backbone (model w)) + i - length (backbone (model w))) with i
      by lia. }
  rewrite (foldl_alter_in (fun ag => ag.1) (fun ag => accumulate ag.2) _ _ (a, g));
    [|by apply NoDup_zip_fst|done].
  unfold zero_grad in Hz. simpl in Hz |- *. rewrite Hz. simpl.
  unfold accumulate. simpl. by rewrite Hrg.
Qed.

Lemma train_batch_wf (w : World) (data : Batch) :
  wf_world w -> wf_world (train_batch w data).1.
Proof.
  intros (Hparams & Hnd & Hreq). rewrite train_batch_before_step. simpl.
  destruct (call_model_same w (b_im data)) as (Hh & Ho & Hb & Hf).
  unfold step, before_step, backward, zero_grad. simpl.
  destruct (adam _ _) as [mom vs]. unfold wf_world, parameters. simpl.
  rewrite Ho, Hb, Hf, Hh. split; [done|]. split; [done|].
  intros a Ha.
  apply (foldl_alter_pres (fun av => av.1) (fun av => set_value av.2)
           (fun p => requires_grad p = true)); [done|].
  apply (foldl_alter_pres (fun ag => ag.1) (fun ag => accumulate ag.2)
           (fun p => requires_grad p = true)).
  { intros x p Hp. unfold accumulate. by rewrite Hp. }
  apply (foldl_alter_pres (fun a => a) (fun _ => set_grad None)
           (fun p => requires_grad p = true)); [done|].
  by apply Hreq.
Qed.

Lemma train_batches_wf (bs : list Batch) (w : World) :
  wf_world w -> wf_world (foldl (fun w b => (train_batch w b).1) w bs).
Proof.
  revert w. induction bs as [|b bs IH]; intros w Hwf; simpl; [done|].
  by apply IH, train_batch_wf.
Qed.

(** The world the notebook builds is well formed when the parameters of
    the pretrained backbone are distinct objects of the store. *)
Lemma setup_wf (head : list T) (resnet18 : Net) (h : store) :
  NoDup (backbone resnet18) ->
  Forall (fun a => a < length h) (backbone resnet18) ->
  wf_world (setup head resnet18 h).
Proof.
  intros Hnd Hlt. unfold setup, replace_fc, freeze, wf_world, parameters. simpl.
  rewrite (foldl_alter_length (fun a => a) (fun _ => set_required_grad)).
  split; [done|]. split.
  - apply NoDup_app. split; [done|]. split; [|apply NoDup_seq].
    intros a Ha Hseq. rewrite Forall_forall in Hlt. specialize (Hlt a Ha).
    apply elem_of_seq in Hseq. lia.
  - intros a Ha. apply elem_of_seq in Ha as [Hge Hlt'].
    rewrite lookup_app_r
      by (rewrite (foldl_alter_length (fun a => a) (fun _ => set_required_grad));
          lia).
    rewrite (foldl_alter_length (fun a => a) (fun _ => set_required_grad)).
    destruct (lookup_lt_is_Some_2 (map new_parameter head) (a - length h))
      as [p Hp]; [rewrite length_map; lia|].
    exists p. split; [done|].
    apply list_elem_of_lookup_2, list_elem_of_In, in_map_iff in Hp as (v & <- & _).
    done.
Qed.

Lemma train_mode_wf (w : World) : wf_world w -> wf_world (train_mode w).
Proof. by intros Hwf. Qed.

Lemma train_batch_one_step (w : World) (data : Batch) :
  steps (optimizer (train_batch w data).1) = S (steps (optimizer w)).
Proof.
  rewrite train_batch_before_step. simpl.
  destruct (call_model_same w (b_im data)) as (_ & Ho & _).
  unfold step, before_step. simpl. destruct (adam _ _). simpl. by rewrite Ho.
Qed.

Lemma train_batches_steps (bs : list Batch) (w : World) :
  steps (optimizer (foldl (fun w b => (train_batch w b).1) w bs))
  = steps (optimizer w) + length bs.
Proof.
  revert w. induction bs as [|b bs IH]; intros w; simpl; [lia|].
  rewrite IH, train_batch_one_step. lia.
Qed.

Lemma train_batch_is_spec (w : World) (data : Batch) :
  train_batch w data = train_batch_spec w data.
Proof. reflexivity. Qed.

(** C7: over the batches of an epoch, taken in the order of the iterator,
    the loop runs for each batch the forward pass, the loss, the zeroing of
    the gradients, the backpropagation and one optimizer step, and adds
    [loss.item()] to the running loss; the number of optimizer steps grows
    by one per batch; and when [optimizer.step()] runs for a batch, every
    parameter of the head holds the gradient of the loss of that batch
    alone. *)
Theorem train_batches_in_order (chunks : list (list nat)) (bs : list Batch)
    (w : World) (training_loss : float) :
  wf_world w ->
  fetch_all train_loader chunks = Ok bs ->
  for_each train_iteration chunks (w, training_loss)
  = Ok (foldl (fun w b => (train_batch_spec w b).1) w bs,
        fold_left PrimFloat.add (batch_losses w bs) training_loss)
  /\ steps (optimizer (foldl (fun w b => (train_batch_spec w b).1) w bs))
     = steps (optimizer w) + length bs
  /\ forall bs1 b bs2 i a g,
       bs = bs1 ++ b :: bs2 ->
       let wk := foldl (fun w b => (train_batch_spec w b).1) w bs1 in
       fc (model wk) !! i = Some a ->
       grad_of (batch_loss_tensor wk b) !! (length (backbone (model wk)) + i) = Some g ->
       train_batch_spec wk b = (step (before_step wk b), batch_loss wk b)
       /\ grad <$> heap (before_step wk b) !! a = Some (Some g).
Proof.
  intros Hwf Hbs. split; [by apply train_iterations|].
  split; [apply train_batches_steps|].
  intros bs1 b bs2 i a g _ wk Ha Hg. split.
  - apply train_batch_before_step.
  - apply (before_step_grad wk b i a g); [|done|done]. by apply train_batches_wf.
Qed.

(** ** Results on the prediction dictionary *)

Lemma dict_set_keys (k v : string) (d : list (string * string)) :
  (dict_set k v d).*1 = if decide (k ∈ d.*1) then d.*1 else d.*1 ++ [k].
Proof.
  induction d as [|[k' v'] d IH]; [done|]. cbn [dict_set].
  destruct (String.eqb_spec k' k) as [->|Hne]; rewrite !fmap_cons; cbn [fst].
  - rewrite decide_True; [done | left].
  - rewrite IH. destruct (decide (k ∈ d.*1)) as [Hin|Hnin].
    + rewrite decide_True; [done | by right].
    + rewrite decide_False; [done|]. intros Hin.
      apply elem_of_cons in Hin as [->|Hin]; done.
Qed.

Lemma dict_set_NoDup (k v : string) (d : list (string * string)) :
  NoDup (d.*1) -> NoDup ((dict_set k v d).*1).
Proof.
  intros Hnd. rewrite dict_set_keys. case_decide; [done|].
  apply NoDup_app. split; [done|]. split; [|apply NoDup_singleton].
  intros x Hx Hx'. apply list_elem_of_singleton in Hx'. by subst.
Qed.

Lemma dict_set_elem (k v : string) (d : list (string * string)) :
  (k, v) ∈ dict_set k v d.
Proof.
  induction d as [|[k' v'] d IH]; simpl; [left|].
  destruct (String.eqb k' k); [left | by right].
Qed.

Lemma dict_set_other (k v k' v' : string) (d : list (string * string)) :
  k' <> k -> (k', v') ∈ d -> (k', v') ∈ dict_set k v d.
Proof.
  intros Hne. induction d as [|[k0 v0] d IH]; simpl; [by intros H; inversion H|].
  intros Hin. apply elem_of_cons in Hin as [[= <- <-]|Hin].
  - destruct (String.eqb_spec k' k); [done | left].
  - destruct (String.eqb k0 k); right; [done | by apply IH].
Qed.

Lemma writes_keys (recs d : list (string * string)) (k : string) :
  k ∈ (foldl write d recs).*1 <-> k ∈ d.*1 \/ k ∈ recs.*1.
Proof.
  revert d. induction recs as [|[k' v'] recs IH]; intros d.
  - simpl. split; [by left | intros [?|H]; [done | inversion H]].
  - cbn [foldl]. rewrite IH. unfold write. cbn [fst snd].
    rewrite dict_set_keys, fmap_cons, elem_of_cons. cbn [fst].
    case_decide as Hk'.
    + split.
      * intros [?|?]; [by left | by right; right].
      * intros [?|[->|?]]; [by left | by left | by right].
    + rewrite elem_of_app, list_elem_of_singleton. split.
      * intros [[?|?]|?]; [by left | by right; left | by right; right].
      * intros [?|[?|?]]; [by left; left | by left; right | by right].
Qed.

Lemma writes_NoDup (recs d : list (string * string)) :
  NoDup (d.*1) -> NoDup ((foldl write d recs).*1).
Proof.
  revert d. induction recs as [|kv recs IH]; intros d Hnd; simpl; [done|].
  by apply IH, dict_set_NoDup.
Qed.

(** The last write under a key is the record the dictionary holds. *)
Lemma writes_last (r1 r2 d : list (string * string)) (k v : string) :
  k ∉ r2.*1 -> (k, v) ∈ foldl write d (r1 ++ (k, v) :: r2).
Proof.
  intros Hk. rewrite foldl_app. simpl.
  assert (Hin : (k, v) ∈ write (foldl write d r1) (k, v)) by apply dict_set_elem.
  revert Hin. generalize (write (foldl write d r1) (k, v)). clear r1 d.
  induction r2 as [|[k' v'] r2 IH]; intros d Hin; simpl; [done|].
  simpl in Hk. apply not_elem_of_cons in Hk as [Hne Hk].
  apply IH; [done|]. by apply dict_set_other.
Qed.

Lemma NoDup_fst_unique (d : list (string * string)) (k v v' : string) :
  NoDup (d.*1) -> (k, v) ∈ d -> (k, v') ∈ d -> v = v'.
Proof.
  induction d as [|[k0 v0] d IH]; simpl; intros Hnd H1 H2; [inversion H1|].
  apply NoDup_cons in Hnd as [Hk0 Hnd].
  apply elem_of_cons in H1 as [E1|H1]; apply elem_of_cons in H2 as [E2|H2].
  - congruence.
  - inversion E1; subst. exfalso. apply Hk0. apply list_elem_of_fmap.
    by exists (k0, v').
  - inversion E2; subst. exfalso. apply Hk0. apply list_elem_of_fmap.
    by exists (k0, v).
  - by apply IH.
Qed.

Lemma filter_key_absent (d : list (string * string)) (k : string) :
  k ∉ d.*1 -> filter (fun kv => kv.1 = k) d = [].
Proof.
  induction d as [|[k0 v0] d IH]; intros Hk; [done|].
  simpl in Hk. apply not_elem_of_cons in Hk as [Hne Hk].
  rewrite filter_cons. simpl. rewrite decide_False by done. by apply IH.
Qed.

Lemma NoDup_fst_once (d : list (string * string)) (k : string) :
  NoDup (d.*1) -> k ∈ d.*1 -> length (filter (fun kv => kv.1 = k) d) = 1.
Proof.
  induction d as [|[k0 v0] d IH]; intros Hnd Hk; [inversion Hk|].
  simpl in Hnd, Hk. apply NoDup_cons in Hnd as [Hk0 Hnd].
  rewrite filter_cons. simpl. destruct (decide (k0 = k)) as [->|Hne].
  - simpl. by rewrite filter_key_absent.
  - apply IH; [done|]. apply elem_of_cons in Hk as [->|Hk]; done.
Qed.

(** As many records as distinct keys written. *)
Lemma writes_length (recs : list (string * string)) :
  length (foldl write [] recs) = length (remove_dups (recs.*1)).
Proof.
  rewrite <- (length_fmap fst). apply Permutation_length, NoDup_Permutation.
  - by apply writes_NoDup, NoDup_nil.
  - apply NoDup_remove_dups.
  - intros k. rewrite writes_keys, elem_of_remove_dups. simpl.
    split; [intros [H|H]; [inversion H | done] | by right].
Qed.

(** ** Results on the inference pass *)

Lemma getitem_Ok (ds : FlowerDataset) (i : nat) (s : Sample) :
  __getitem__ ds i = Ok s ->
  exists r, data ds !! i = Some r
    /\ row_image ds r = Some (im s)
    /\ im_name s = if String.eqb (mode ds) "test" then Some (file_name r) else None.
Proof.
  destruct (data ds !! i) as [r|] eqn:Hr.
  - rewrite (getitem_from_label ds i r Hr). unfold row_image.
    intros H. exists r. split; [done|].
    destruct (match mapping ds with Some _ => _ | None => _ end); simpl in H;
      [|discriminate].
    destruct (as_tensor _); simpl in H; [|discriminate].
    destruct (Image_open (file_name r)) as [img|]; simpl in H; [|discriminate].
    destruct (transform ds) as [t|].
    + destruct (t img); simpl in H; [|discriminate]. by injection H as <-.
    + simpl in H. by injection H as <-.
  - unfold __getitem__, loc. rewrite Hr. simpl. by destruct (mapping ds).
Qed.

Lemma infer_iteration_one (w : World) (p : Predictions) (i : nat) :
  training (model w) = false ->
  infer_iteration (w, p) [i]
  = (s <- __getitem__ test_dataset i ;;
     n <- of_option KeyError (im_name s) ;;
     cls <- of_option KeyError (cat_to_index !! predict w (im s)) ;;
     Ok (w, {| p_total := p_total p + 1;
               p_correct_preds :=
                 p_correct_preds p + count_correct [predict w (im s)] [labels s];
               pred_list := dict_set (basename n) cls (pred_list p) |})).
Proof.
  intros Ht. unfold infer_iteration, fetch. simpl.
  destruct (__getitem__ test_dataset i) as [s|]; simpl; [|done].
  unfold infer_batch. simpl. destruct (im_name s) as [n|]; simpl; [|done].
  rewrite call_model_eval by done. simpl. fold (predict w (im s)).
  by destruct (cat_to_index !! predict w (im s)).
Qed.

Lemma infer_iterations (m a : nat) (w w' : World) (p p' : Predictions) :
  training (model w) = false ->
  a + m = __len__ test_dataset ->
  for_each infer_iteration (map (fun i => [i]) (seq a m)) (w, p) = Ok (w', p') ->
  exists recs,
    Forall2 (records w) (drop a (data test_dataset)) recs
    /\ pred_list p' = foldl write (pred_list p) recs.
Proof.
  intros Ht. revert a p. induction m as [|m IH]; intros a p Hlen; simpl.
  - intros [= <- <-]. exists []. split; [|done].
    rewrite drop_ge; [constructor | unfold __len__ in Hlen; lia].
  - rewrite infer_iteration_one by done.
    destruct (__getitem__ test_dataset a) as [s|] eqn:Hs; simpl; [|discriminate].
    apply getitem_Ok in Hs as (r & Hr & Himg & Hname).
    destruct (im_name s) as [n|]; simpl; [|discriminate].
    destruct (cat_to_index !! predict w (im s)) as [cls|] eqn:Hcls; simpl;
      [|discriminate].
    intros Hrest. apply IH in Hrest as (recs & Hrecs & Hp'); [|lia].
    exists ((basename n, cls) :: recs). split; [|done].
    rewrite (drop_S _ r) by done. constructor; [|done].
    split; [|by exists (im s)]. simpl. unfold key.
    destruct (String.eqb (mode test_dataset) "test"); congruence.
Qed.

Lemma infer_iterations_total (m a : nat) (w : World) (p : Predictions) :
  training (model w) = false ->
  mode test_dataset = "test"%string ->
  (forall i, a <= i < a + m -> exists s, __getitem__ test_dataset i = Ok s) ->
  (forall img, is_Some (cat_to_index !! predict w img)) ->
  exists p', for_each infer_iteration (map (fun i => [i]) (seq a m)) (w, p) = Ok (w, p').
Proof.
  intros Ht Hmode Hget Hcls. revert a p Hget.
  induction m as [|m IH]; intros a p Hget; simpl; [by eexists|].
  rewrite infer_iteration_one by done.
  destruct (Hget a) as [s Hs]; [lia|]. rewrite Hs. simpl.
  apply getitem_Ok in Hs as (r & _ & _ & Hname).
  rewrite Hmode in Hname. simpl in Hname. rewrite Hname. simpl.
  destruct (Hcls (im s)) as [cls ->]. simpl. apply IH. intros i Hi. apply Hget. lia.
Qed.

(** The predictions written are the writes of the rows of the test index,
    in order. *)
Lemma inference_writes (w : World) (df : list (string * string))
    (acc : result float) :
  inference w = Ok (df, acc) ->
  exists recs,
    Forall2 (records w) (data test_dataset) recs /\ df = foldl write [] recs.
Proof.
  unfold inference, batches, sampler. simpl. rewrite batch_sampler_one.
  destruct (for_each _ _ _) as [[w' p']|] eqn:Hloop; simpl; [|discriminate].
  intros [= <- _].
  apply (infer_iterations _ 0) in Hloop as (recs & Hrecs & Hp'); [|done|done].
  exists recs. by split.
Qed.

Lemma records_keys (w : World) (rows : list row) (recs : list (string * string)) :
  Forall2 (records w) rows recs -> recs.*1 = key <$> rows.
Proof.
  induction 1 as [|r kv rows recs [Hk _] _ IH]; [done|].
  rewrite !fmap_cons. by rewrite Hk, IH.
Qed.

(** The record of a row is in the dictionary unless a later row has its
    basename. *)
Lemma records_last (w : World) (rows : list row) (recs d : list (string * string))
    (i : nat) (r : row) :
  Forall2 (records w) rows recs ->
  rows !! i = Some r ->
  (forall j r', i < j -> rows !! j = Some r' -> key r' <> key r) ->
  exists img cls,
    row_image test_dataset r = Some img
    /\ cat_to_index !! predict w img = Some cls
    /\ (key r, cls) ∈ foldl write d recs.
Proof.
  intros Hrecs Hr Hlater.
  destruct (Forall2_lookup_l _ _ _ _ _ Hrecs Hr) as ([k cls] & Hkv & Hk & img & Himg & Hcls).
  simpl in Hk, Hcls. subst k. exists img, cls. split; [done|]. split; [done|].
  rewrite <- (take_drop_middle recs i (key r, cls)) by done.
  apply writes_last. intros Hin.
  apply list_elem_of_fmap in Hin as ([k' v'] & Hk' & Hin). simpl in Hk'.
  apply list_elem_of_lookup in Hin as [j Hj]. rewrite lookup_drop in Hj.
  destruct (Forall2_lookup_r _ _ _ _ _ Hrecs Hj) as (r' & Hr' & Hk'' & _).
  simpl in Hk''. apply (Hlater (S i + j) r'); [lia | done | congruence].
Qed.

(** C4 (as amended): when the dataset is in test mode, every test sample
    can be fetched and every predicted class is one of [cat_to_index], the
    inference pass writes its predictions; they have as many rows as there
    are distinct basenames among the file names of the test index, and the
    basename of every file_name of the test index is the file_name of
    exactly one row. *)
Theorem predictions_rows (w : World) :
  mode test_dataset = "test"%string ->
  (forall i, i < __len__ test_dataset -> exists s, __getitem__ test_dataset i = Ok s) ->
  (forall img, is_Some (cat_to_index !! predict w img)) ->
  exists df acc,
    inference w = Ok (df, acc)
    /\ length df = length (remove_dups (key <$> data test_dataset))
    /\ forall r, r ∈ data test_dataset ->
         length (filter (fun kv => kv.1 = key r) df) = 1.
Proof.
  intros Hmode Hget Hcls.
  destruct (infer_iterations_total (__len__ test_dataset) 0 (eval_mode w)
              {| p_total := 0; p_correct_preds := 0; pred_list := [] |})
    as [p' Hloop]; [done | done | intros i Hi; apply Hget; lia | exact Hcls |].
  assert (Hinf : exists acc, inference w = Ok (pred_list p', acc)).
  { unfold inference, batches, sampler. simpl. rewrite batch_sampler_one.
    rewrite Hloop. simpl. by eexists. }
  destruct Hinf as [acc Hinf]. exists (pred_list p'), acc. split; [done|].
  destruct (inference_writes _ _ _ Hinf) as (recs & Hrecs & ->).
  apply records_keys in Hrecs. split.
  - by rewrite writes_length, Hrecs.
  - intros r Hr. apply NoDup_fst_once.
    + apply writes_NoDup, NoDup_nil. done.
    + apply writes_keys. right. rewrite Hrecs. by apply list_elem_of_fmap_2.
Qed.

(** C9 (as amended): for every row of the test index, whether or not the
    dataset has a class mapping, the inference pass turns the arg-max class
    of the row's image into a class name by looking it up in [cat_to_index]
    and files that name under the basename of the row's file_name; the
    predictions written hold that record unless a later row has the same
    basename. *)
Theorem prediction_recorded (w : World) (df : list (string * string))
    (acc : result float) (i : nat) (r : row) :
  inference w = Ok (df, acc) ->
  data test_dataset !! i = Some r ->
  exists img cls,
    row_image test_dataset r = Some img
    /\ cat_to_index !! predict w img = Some cls
    /\ ((forall j r', i < j -> data test_dataset !! j = Some r' -> key r' <> key r) ->
        (key r, cls) ∈ df).
Proof.
  intros Hinf Hr. destruct (inference_writes _ _ _ Hinf) as (recs & Hrecs & ->).
  destruct (Forall2_lookup_l _ _ _ _ _ Hrecs Hr)
    as ([k cls] & Hkv & Hk & img & Himg & Hcls).
  simpl in Hcls. exists img, cls. split; [done|]. split; [done|].
  intros Hlater.
  destruct (records_last w _ recs [] i r Hrecs Hr Hlater)
    as (img' & cls' & Himg' & Hcls' & Hin).
  congruence.
Qed.

(** C10: the predictions are keyed by the basename of the file_name: the
    file_name column holds exactly the basenames of the file names of the
    test index; and of two rows whose file names have the same basename, the
    earlier one leaves no record of its own: the one record under that
    basename holds the class name predicted for the last such row. *)
Theorem predictions_keyed_by_basename (w : World) (df : list (string * string))
    (acc : result float) :
  inference w = Ok (df, acc) ->
  (forall k, k ∈ df.*1 <-> exists r, r ∈ data test_dataset /\ k = basename (file_name r))
  /\ forall i j ri rj,
       i < j ->
       data test_dataset !! i = Some ri ->
       data test_dataset !! j = Some rj ->
       basename (file_name ri) = basename (file_name rj) ->
       (forall j' r', j < j' -> data test_dataset !! j' = Some r' ->
          basename (file_name r') <> basename (file_name rj)) ->
       exists img cls,
         row_image test_dataset rj = Some img
         /\ cat_to_index !! predict w img = Some cls
         /\ forall v, (basename (file_name ri), v) ∈ df <-> v = cls.
Proof.
  intros Hinf. destruct (inference_writes _ _ _ Hinf) as (recs & Hrecs & ->).
  split.
  - intros k. rewrite writes_keys, (records_keys _ _ _ Hrecs). split.
    + intros [H|H]; [inversion H|].
      apply list_elem_of_fmap in H as (r & -> & Hr). by exists r.
    + intros (r & Hr & ->). right. by apply (list_elem_of_fmap_2 key).
  - intros i j ri rj Hij Hi Hj Hsame Hlater.
    destruct (records_last w _ recs [] j rj Hrecs Hj Hlater)
      as (img & cls & Himg & Hcls & Hin).
    exists img, cls. split; [done|]. split; [done|].
    rewrite Hsame. fold (key rj). intros v. split; [|by intros ->].
    intros Hv. eapply NoDup_fst_unique; [|exact Hv|exact Hin].
    apply writes_NoDup, NoDup_nil. done.
Qed.

(** ** Further results on the index *)

Lemma ensure_valid_index_nonempty (annotations splits : frame) :
  annotations <> [] -> ensure_valid_index annotations splits = annotations.
Proof. intros Hne. destruct annotations; [done|]. by destruct splits. Qed.

Lemma adopted_index (f : frame) :
  (map (fun kv : string * cell => (kv.1, CNaN)) f).*1 = f.*1.
Proof. induction f as [|[k t] f IH]; simpl; [done | by f_equal]. Qed.

Lemma filter_rows_sublist (md : string) (df : frame) (tags : list cell) :
  (fun r => (file_name r, class_name r))
    <$> filter (fun r => tag_is md (tag r) = true)
          (zip_with (fun kc t => Row kc.1 kc.2 t) df tags)
  `sublist_of` df.
Proof.
  revert tags. induction df as [|[k c] df IH]; intros tags; [constructor|].
  destruct tags as [|t tags]; [apply sublist_nil_l|].
  cbn [zip_with]. rewrite filter_cons. case_decide.
  - rewrite fmap_cons. simpl. apply sublist_skip, IH.
  - apply sublist_cons, IH.
Qed.

(** X2: when the annotations table has a row, the index keeps the rows of
    the annotations in their order: its file_name and class_name columns
    are a sublist of the annotations table. *)
Theorem init_keeps_order (annotations splits : frame)
    (mp : option (gmap string Z)) (md : string) (tr : option (Img -> result Img))
    (ds : FlowerDataset) :
  annotations <> [] ->
  __init__ annotations splits mp md tr = Ok ds ->
  (fun r => (file_name r, class_name r)) <$> data ds `sublist_of` annotations.
Proof.
  intros Hne. unfold __init__, set_tag.
  rewrite ensure_valid_index_nonempty by done.
  destruct (reindex_for_setitem splits annotations) as [tags|]; simpl;
    [|discriminate].
  intros [= <-]. simpl. apply filter_rows_sublist.
Qed.

(** X3: once the two files are read, and when the annotations table has a
    row, what follows in [__init__] fails only on the column assignment,
    with [ValueError], and exactly when the two indexes differ and the index
    of the tags table has a duplicate label. *)
Theorem init_raises (annotations splits : frame) (mp : option (gmap string Z))
    (md : string) (tr : option (Img -> result Img)) (e : exn) :
  annotations <> [] ->
  __init__ annotations splits mp md tr = Raise e
  <-> e = ValueError /\ splits.*1 <> annotations.*1 /\ ~ NoDup (splits.*1).
Proof.
  intros Hne. unfold __init__, set_tag, reindex_for_setitem.
  rewrite ensure_valid_index_nonempty by done.
  rewrite (bool_decide_eq_false_2 (annotations = [])) by done.
  rewrite orb_false_r. case_bool_decide as Heq; simpl.
  - split; [discriminate | by intros (_ & ? & _)].
  - case_bool_decide as Hnd; simpl.
    + split; [discriminate | by intros (_ & _ & ?)].
    + split; [by intros [= <-] | by intros [-> _]].
Qed.

Lemma exclusive_filters_length (rows : list row) :
  length (filter (fun r => tag_is "train" (tag r) = true) rows)
  + length (filter (fun r => tag_is "valid" (tag r) = true) rows)
  + length (filter (fun r => tag_is "test" (tag r) = true) rows)
  <= length rows.
Proof.
  induction rows as [|r rows IH]; [done|].
  rewrite !filter_cons.
  destruct (decide (tag_is "train" (tag r) = true)) as [H1|H1];
    destruct (decide (tag_is "valid" (tag r) = true)) as [H2|H2];
    destruct (decide (tag_is "test" (tag r) = true)) as [H3|H3]; simpl;
    try apply tag_is_true in H1; try apply tag_is_true in H2;
    try apply tag_is_true in H3; try congruence; lia.
Qed.

(** X4: when the annotations table has a row, the train, valid and test
    indexes built from the same tables hold together at most as many rows
    as the annotations table: no annotation is counted twice. *)
Theorem splits_total (annotations splits : frame)
    (mp1 mp2 mp3 : option (gmap string Z)) (tr1 tr2 tr3 : option (Img -> result Img))
    (train valid test : FlowerDataset) :
  annotations <> [] ->
  __init__ annotations splits mp1 "train" tr1 = Ok train ->
  __init__ annotations splits mp2 "valid" tr2 = Ok valid ->
  __init__ annotations splits mp3 "test" tr3 = Ok test ->
  __len__ train + __len__ valid + __len__ test <= length annotations.
Proof.
  intros Hne. unfold __init__, __len__, set_tag.
  rewrite ensure_valid_index_nonempty by done.
  destruct (reindex_for_setitem splits annotations) as [tags|]; simpl;
    [|discriminate].
  intros [= <-] [= <-] [= <-]. simpl.
  etrans; [apply exclusive_filters_length|].
  rewrite length_zip_with. lia.
Qed.

(** ** Further results on item access *)

(** X5: an index at or past the length is refused by the label lookup
    [self.data.loc[idx, ...]]: [__getitem__] raises [KeyError], with or
    without a mapping. *)
Theorem getitem_out_of_range (self : FlowerDataset) (idx : nat) :
  __len__ self <= idx -> __getitem__ self idx = Raise KeyError.
Proof.
  intros Hge. unfold __getitem__, loc, __len__ in *.
  rewrite (lookup_ge_None_2 (data self) idx) by done.
  by destruct (mapping self).
Qed.


(** X7: a sample [__getitem__] returns is made from the row at the index:
    its image is what the transform returns for the image opened at the
    row's file_name (that image itself without a transform), and it carries
    that file_name exactly when the dataset is in test mode. *)
Theorem getitem_sample (self : FlowerDataset) (idx : nat) (smp : Sample) :
  __getitem__ self idx = Ok smp ->
  exists r img,
    data self !! idx = Some r
    /\ Image_open (file_name r) = Some img
    /\ match transform self with Some t => t img | None => Ok img end
       = Ok (im smp)
    /\ (mode self = "test"%string -> im_name smp = Some (file_name r))
    /\ (mode self <> "test"%string -> im_name smp = None).
Proof.
  intros Hs. apply getitem_Ok in Hs as (r & Hr & Himg & Hname).
  unfold row_image in Himg.
  destruct (Image_open (file_name r)) as [img|] eqn:Hopen; [|discriminate].
  exists r, img. split; [done|]. split; [done|]. split.
  - destruct (transform self) as [t|]; [|congruence].
    destruct (t img); [congruence | discriminate].
  - revert Hname.
    destruct (String.eqb_spec (mode self) "test") as [E|E]; intros Hname;
      split; intros; congruence.
Qed.

Lemma lower_ascii_idemp (c : ascii) : lower_ascii (lower_ascii c) = lower_ascii c.
Proof.
  destruct c as [[] [] [] [] [] [] [] []]; reflexivity.
Qed.

Lemma lower_idemp (s : string) : lower (lower s) = lower s.
Proof.
  induction s as [|c s IH]; simpl; [done|]. by rewrite lower_ascii_idemp, IH.
Qed.

(** X8: a mapping is looked up with lower-cased class names only: when no
    key of the mapping is its own lower-casing (every key has an upper-case
    letter), [__getitem__] raises [KeyError] at every row whose class name
    is a string. *)
Theorem getitem_uppercase_keys (self : FlowerDataset) (m : gmap string Z)
    (idx : nat) (r : row) (s : string) :
  mapping self = Some m -> data self !! idx = Some r -> class_name r = CStr s ->
  (forall k, is_Some (m !! k) -> lower k <> k) ->
  __getitem__ self idx = Raise KeyError.
Proof.
  intros Hm Hr Hc Hkeys. rewrite (getitem_with_mapping self m idx r s Hm Hr Hc).
  destruct (m !! lower s) as [v|] eqn:Hl; simpl; [|done].
  exfalso. apply (Hkeys (lower s)); [by eexists | apply lower_idemp].
Qed.

(** An index built from an annotations table without rows. *)
Lemma set_tag_no_annotations (splits : frame) :
  set_tag [] splits = Ok ((fun kt => Row kt.1 CNaN kt.2) <$> splits).
Proof.
  unfold set_tag, reindex_for_setitem. destruct splits as [|[k t] splits]; [done|].
  cbn [ensure_valid_index].
  rewrite bool_decide_eq_true_2 by (symmetry; apply adopted_index). simpl.
  do 2 f_equal. induction splits as [|[k' t'] splits IH]; simpl; [done | by f_equal].
Qed.

Lemma filter_fmap_rows (md : string) (splits : frame) :
  filter (fun r => tag_is md (tag r) = true)
    ((fun kt : string * cell => Row kt.1 CNaN kt.2) <$> splits)
  = (fun kt => Row kt.1 CNaN kt.2) <$> filter (fun kt => tag_is md kt.2 = true) splits.
Proof.
  induction splits as [|[k t] splits IH]; [done|].
  rewrite fmap_cons, !filter_cons. simpl.
  destruct (decide (tag_is md t = true)); [rewrite fmap_cons|]; by rewrite IH.
Qed.

(** X9: from an annotations table without rows [__init__] builds an index
    all the same: one row per row of the tags table with the requested tag,
    its class name missing; and [__getitem__] fails at every index of it. *)
Theorem init_no_annotations (splits : frame) (mp : option (gmap string Z))
    (md : string) (tr : option (Img -> result Img)) :
  exists ds,
    __init__ [] splits mp md tr = Ok ds
    /\ data ds = (fun kt => Row kt.1 CNaN kt.2)
                   <$> filter (fun kt => tag_is md kt.2 = true) splits
    /\ forall idx, exists e, __getitem__ ds idx = Raise e.
Proof.
  unfold __init__. rewrite set_tag_no_annotations. simpl. eexists.
  split; [reflexivity|]. simpl. rewrite filter_fmap_rows. split; [done|].
  intros idx. unfold __getitem__, loc. simpl.
  destruct (((fun kt : string * cell => Row kt.1 CNaN kt.2)
               <$> filter (fun kt => tag_is md kt.2 = true) splits) !! idx)
    as [r|] eqn:Hr; simpl.
  - apply list_elem_of_lookup_2, list_elem_of_fmap in Hr as (kt & -> & _). simpl.
    destruct mp; simpl; by eexists.
  - destruct mp; simpl; by eexists.
Qed.

(** With a unique tags index, the tag of a row of the frame is the tag the
    tags table gives its file_name. *)
Lemma set_tag_lookup (annotations splits : frame) (rows : list row) :
  NoDup (splits.*1) -> set_tag annotations splits = Ok rows ->
  forall r, r ∈ rows -> tag r = default CNaN (frame_lookup (file_name r) splits).
Proof.
  intros Hnd. destruct (decide (annotations = [])) as [->|Hne].
  - rewrite set_tag_no_annotations. intros [= <-] r Hr.
    apply list_elem_of_fmap in Hr as ([k t] & -> & Hin). simpl.
    apply (frame_lookup_Some k t splits Hnd) in Hin. by rewrite Hin.
  - rewrite set_tag_joined by done. intros [= <-] r Hr.
    by apply list_elem_of_fmap in Hr as ([k c] & -> & _).
Qed.

(** X1: when the index of the tags table is unique, no file is in the
    indexes of two different modes built from the same tables. *)
Theorem split_files_disjoint (annotations splits : frame)
    (mp1 mp2 : option (gmap string Z)) (md1 md2 : string)
    (tr1 tr2 : option (Img -> result Img)) (ds1 ds2 : FlowerDataset)
    (f : string) :
  NoDup (splits.*1) ->
  __init__ annotations splits mp1 md1 tr1 = Ok ds1 ->
  __init__ annotations splits mp2 md2 tr2 = Ok ds2 ->
  md1 <> md2 ->
  f ∈ file_name <$> data ds1 -> f ∉ file_name <$> data ds2.
Proof.
  intros Hnd. unfold __init__.
  destruct (set_tag annotations splits) as [rows|] eqn:Hrows; simpl; [|discriminate].
  intros [= <-] [= <-] Hne. simpl. intros H1 H2.
  apply list_elem_of_fmap in H1 as (r1 & -> & H1).
  apply list_elem_of_fmap in H2 as (r2 & Hf & H2).
  apply list_elem_of_filter in H1 as [Ht1 H1].
  apply list_elem_of_filter in H2 as [Ht2 H2].
  apply tag_is_true in Ht1. apply tag_is_true in Ht2.
  rewrite (set_tag_lookup annotations splits rows Hnd Hrows r1 H1) in Ht1.
  rewrite (set_tag_lookup annotations splits rows Hnd Hrows r2 H2) in Ht2.
  rewrite Hf in Ht1. congruence.
Qed.

(** Without that the statement fails: when the two tables have the same
    index, with a file_name twice in it, the tags are taken row by row, and
    the file is in the train index and in the test index. *)
Remark split_files_shared :
  exists train test : FlowerDataset,
    __init__ [("a.jpg"%string, CInt 0); ("a.jpg"%string, CInt 1)]
      [("a.jpg"%string, CStr "train"); ("a.jpg"%string, CStr "test")]
      None "train" None = Ok train
    /\ __init__ [("a.jpg"%string, CInt 0); ("a.jpg"%string, CInt 1)]
         [("a.jpg"%string, CStr "train"); ("a.jpg"%string, CStr "test")]
         None "test" None = Ok test
    /\ file_name <$> data train = ["a.jpg"%string]
    /\ file_name <$> data test = ["a.jpg"%string].
Proof. do 2 eexists. repeat split; reflexivity. Qed.

(** ** Further results on the loaders *)

Lemma batch_sampler_concat (bsize : nat) (cur : list nat) (k : nat) (l : list nat) :
  concat (batch_sampler bsize cur k l) = rev cur ++ l.
Proof.
  revert cur k. induction l as [|idx l IH]; intros cur k; cbn [batch_sampler].
  - destruct cur; simpl; [done | by rewrite !app_nil_r].
  - destruct (S k =? bsize); cbn [concat]; rewrite IH; simpl;
      by rewrite <- app_assoc.
Qed.

Lemma batch_sampler_sizes (bsize : nat) (cur : list nat) (k : nat) (l : list nat) :
  length cur = k -> k < bsize ->
  Forall (fun b => 0 < length b <= bsize) (batch_sampler bsize cur k l).
Proof.
  revert cur k. induction l as [|idx l IH]; intros cur k Hk Hlt;
    cbn [batch_sampler].
  - destruct cur as [|c cur]; [constructor|]. constructor; [|constructor].
    rewrite length_rev. simpl in *. lia.
  - destruct (Nat.eqb_spec (S k) bsize) as [Heq|Hne].
    + constructor; [|apply IH; simpl; lia].
      rewrite length_rev. simpl. lia.
    + apply IH; simpl; lia.
Qed.

Lemma batch_sampler_count (bsize : nat) (cur : list nat) (k : nat) (l : list nat) :
  length cur = k -> k < bsize ->
  length (batch_sampler bsize cur k l) = (k + length l + bsize - 1) / bsize.
Proof.
  revert cur k. induction l as [|idx l IH]; intros cur k Hk Hlt;
    cbn [batch_sampler].
  - destruct cur as [|c cur]; simpl in *.
    + subst k. symmetry. apply Nat.div_small. lia.
    + apply (Nat.div_unique _ _ 1 (k - 1)); lia.
  - destruct (Nat.eqb_spec (S k) bsize) as [Heq|Hne]; cbn [length].
    + rewrite (IH [] 0) by (simpl; lia).
      replace (k + S (length l) + bsize - 1) with (0 + length l + bsize - 1 + 1 * bsize)
        by lia.
      rewrite Nat.div_add by lia. lia.
    + rewrite (IH (idx :: cur) (S k)) by (simpl; lia). f_equal. lia.
Qed.

(** X10: with a positive batch size, one pass of a loader visits the
    indices of its sampler once each and in order: the batches, put end to
    end, are the sampler's order; every batch holds between one and
    [batch_size] indices; and there are [ceil(n / batch_size)] of them. *)
Theorem loader_batches (loader : DataLoader) (randperm : list nat) :
  0 < batch_size loader ->
  concat (batches loader randperm) = sampler loader randperm
  /\ Forall (fun b => 0 < length b <= batch_size loader) (batches loader randperm)
  /\ length (batches loader randperm)
     = (length (sampler loader randperm) + batch_size loader - 1) / batch_size loader.
Proof.
  intros Hpos. unfold batches. split; [apply batch_sampler_concat|].
  split; [by apply batch_sampler_sizes|].
  by rewrite batch_sampler_count.
Qed.

(** ** Further results on the training loop *)

Lemma train_iterations_steps (chunks : list (list nat)) (s s' : World * float) :
  for_each train_iteration chunks s = Ok s' ->
  steps (optimizer s'.1) = steps (optimizer s.1) + length chunks.
Proof.
  revert s. induction chunks as [|indices chunks IH]; intros [w tl]; simpl.
  - intros [= <-]. simpl. lia.
  - unfold train_iteration at 1. simpl.
    destruct (fetch train_loader indices) as [b|]; simpl; [|discriminate].
    pose proof (train_batch_one_step w b) as Hone.
    destruct (train_batch w b) as [w1 l]. simpl in *.
    intros Hrest. apply IH in Hrest. simpl in Hrest. lia.
Qed.

Lemma train_phase_steps (randperm : list nat) (w : World) (r : World * float) :
  train_phase randperm w = Ok r ->
  steps (optimizer r.1) = steps (optimizer w) + (length randperm + 4) / 5.
Proof.
  unfold train_phase.
  destruct (for_each _ _ _) as [s|] eqn:Hloop; simpl; [|discriminate].
  destruct (truediv _ _); simpl; [|discriminate]. intros [= <-]. simpl.
  apply train_iterations_steps in Hloop. cbn [fst] in Hloop. rewrite Hloop.
  unfold batches, sampler, train_loader. cbn [shuffle batch_size].
  rewrite (batch_sampler_count 5 [] 0) by (simpl; lia).
  replace (0 + length randperm + 5 - 1) with (length randperm + 4) by lia.
  reflexivity.
Qed.

(** X11: an epoch that reports its training loss has taken one optimizer
    step per batch of five: [ceil(n / 5)] steps for the [n] indices the
    sampler drew. *)
Theorem epoch_optimizer_steps (randperm : list nat) (w w' : World) (loss : float) :
  train_phase randperm w = Ok (w', loss) ->
  steps (optimizer w') = steps (optimizer w) + (length randperm + 4) / 5.
Proof. intros H. by apply train_phase_steps in H. Qed.

Lemma valid_iterations_world (chunks : list (list nat)) (w : World)
    (c : Counters) (s : World * Counters) :
  training (model w) = false ->
  for_each valid_iteration chunks (w, c) = Ok s -> s.1 = w.
Proof.
  intros Ht. revert c. induction chunks as [|indices chunks IH]; intros c; simpl.
  - by intros [= <-].
  - unfold valid_iteration at 1. simpl.
    destruct (fetch val_loader indices) as [b|]; simpl; [|discriminate].
    unfold valid_batch. rewrite call_model_eval by done. apply IH.
Qed.

Lemma valid_phase_world (w : World) (r : World * (float * float)) :
  valid_phase w = Ok r -> r.1 = eval_mode w.
Proof.
  unfold valid_phase.
  destruct (for_each _ _ _) as [s|] eqn:Hloop; simpl; [|discriminate].
  destruct (int_truediv _ _); simpl; [|discriminate].
  destruct (truediv _ _); simpl; [|discriminate]. intros [= <-]. simpl.
  by apply valid_iterations_world in Hloop.
Qed.

(** X12: the validation step changes nothing but the mode: when it reports,
    the store, the buffers and the optimizer are as it found them, and the
    network is in evaluation mode. *)
Theorem validation_keeps_world (w w' : World) (report : float * float) :
  valid_phase w = Ok (w', report) ->
  heap w' = heap w /\ optimizer w' = optimizer w
  /\ buffers (model w') = buffers (model w)
  /\ training (model w') = false.
Proof. intros H. apply valid_phase_world in H. simpl in H. by subst w'. Qed.

Lemma training_loop_from (n a : nat) (randperm : nat -> list nat) (q : nat)
    (w w' : World) (reps reps' : list Report) :
  (forall e, (length (randperm e) + 4) / 5 = q) ->
  for_each (epoch_body randperm) (seq a n) (w, reps) = Ok (w', reps') ->
  length reps' = length reps + n
  /\ (0 < n -> training (model w') = false)
  /\ steps (optimizer w') = steps (optimizer w) + n * q.
Proof.
  intros Hlen. revert a w reps. induction n as [|n IH]; intros a w reps; simpl.
  - intros [= <- <-]. split; [lia|]. split; [lia | lia].
  - unfold epoch_body at 1. simpl.
    destruct (train_phase (randperm a) w) as [t|] eqn:Ht; simpl; [|discriminate].
    destruct (valid_phase t.1) as [v|] eqn:Hv; simpl; [|discriminate].
    intros Hrest. pose proof Hrest as Hlast.
    apply IH in Hrest as (Hreps & Hmode & Hsteps).
    apply train_phase_steps in Ht. apply valid_phase_world in Hv.
    rewrite Hv in Hsteps. simpl in Hsteps. rewrite Ht, Hlen in Hsteps.
    rewrite length_app in Hreps. simpl in Hreps.
    split; [lia|]. split; [|lia].
    intros _. destruct n as [|n]; [|apply Hmode; lia].
    simpl in Hlast. injection Hlast as <- _. by rewrite Hv.
Qed.

(** X13: a training loop that runs to its end has printed one report per
    epoch and leaves the network in evaluation mode; when every epoch draws
    [n] indices, the optimizer has taken [num_epochs * ceil(n / 5)] steps. *)
Theorem training_loop_reports (num_epochs : nat) (randperm : nat -> list nat)
    (n : nat) (w w' : World) (reports : list Report) :
  (forall epoch, length (randperm epoch) = n) ->
  training_loop num_epochs randperm w = Ok (w', reports) ->
  length reports = num_epochs
  /\ (0 < num_epochs -> training (model w') = false)
  /\ steps (optimizer w') = steps (optimizer w) + num_epochs * ((n + 4) / 5).
Proof.
  intros Hlen Hloop. unfold training_loop in Hloop.
  apply (training_loop_from _ _ _ ((n + 4) / 5)) in Hloop; [done|].
  intros e. by rewrite Hlen.
Qed.

(** X14: the freezing loop freezes nothing: in the world the notebook
    builds, every parameter of the pretrained network still has its value,
    its gradient and its [requires_grad] flag. *)
Theorem setup_keeps_requires_grad (head : list T) (resnet18 : Net) (h : store)
    (a : nat) (p : Param) :
  h !! a = Some p ->
  exists p',
    heap (setup head resnet18 h) !! a = Some p'
    /\ requires_grad p' = requires_grad p
    /\ value p' = value p /\ grad p' = grad p.
Proof.
  intros Hp. unfold setup, replace_fc, freeze. simpl.
  rewrite lookup_app_l
    by (rewrite (foldl_alter_length (fun a => a) (fun _ => set_required_grad));
        by eapply lookup_lt_Some).
  apply (foldl_alter_pres (fun a => a) (fun _ => set_required_grad)
           (fun q => requires_grad q = requires_grad p
                     /\ value q = value p /\ grad q = grad p)).
  - by intros _ q.
  - by exists p.
Qed.

(** X15: a backbone parameter that requires a gradient receives one at
    every batch, and [optimizer.zero_grad()] never resets it: after a batch
    its [grad] is the gradient of the batch added to what it held before,
    and its value is unchanged. *)
Theorem backbone_grad_accumulates (w : World) (data : Batch) (i a : nat)
    (p : Param) (g : T) :
  wf_world w ->
  backbone (model w) !! i = Some a ->
  heap w !! a = Some p ->
  requires_grad p = true ->
  grad_of (batch_loss_tensor w data) !! i = Some g ->
  exists p',
    heap (train_batch w data).1 !! a = Some p'
    /\ value p' = value p
    /\ grad p' = Some match grad p with
                      | None => g
                      | Some g0 => tadd g0 g
                      end.
Proof.
  intros (Hparams & Hnd & _) Ha Hp Hrg Hg.
  rewrite train_batch_before_step. cbn [fst].
  destruct (call_model_same w (b_im data)) as (Hh & Ho & Hb & Hf).
  assert (Hin : a ∈ backbone (model w)) by (by eapply list_elem_of_lookup_2).
  assert (Hnfc : a ∉ fc (model w)).
  { apply NoDup_app in Hnd as (_ & Hdisj & _). by apply Hdisj. }
  assert (Hbefore : heap (before_step w data) !! a = Some (accumulate g p)).
  { unfold before_step, backward, zero_grad. simpl.
    unfold parameters. rewrite Hb, Hf, Ho, Hparams, Hh.
    assert (Hzip : (a, g) ∈ zip (backbone (model w) ++ fc (model w))
                             (grad_of (batch_loss_tensor w data))).
    { apply (list_elem_of_lookup_2 _ i). apply lookup_zip_with_Some.
      exists a, g. split; [done|]. split; [|done].
      rewrite lookup_app_l; [done | by eapply lookup_lt_Some]. }
    rewrite (foldl_alter_in (fun ag => ag.1) (fun ag => accumulate ag.2) _ _ (a, g));
      [|by apply NoDup_zip_fst|done].
    simpl.
    rewrite (foldl_alter_notin (fun a => a) (fun _ => set_grad None))
      by (by rewrite map_id).
    by rewrite Hp. }
  assert (Hopt : params (optimizer (before_step w data)) = fc (model w)).
  { unfold before_step, backward, zero_grad. simpl. by rewrite Ho. }
  unfold step. destruct (adam _ _) as [mom vs]. cbn [heap].
  rewrite (foldl_alter_notin (fun av => av.1) (fun av => set_value av.2)).
  - rewrite Hbefore. eexists. split; [done|].
    unfold accumulate. rewrite Hrg. by split.
  - intros Hin'. apply list_elem_of_fmap in Hin' as ([a' v] & -> & Hin').
    apply elem_of_zip_l in Hin'. rewrite Hopt in Hin'. done.
Qed.

(** X16: an epoch whose validation set is empty reports no validation
    figures: once the training phase has reported, the accuracy quotient
    [correct_preds / total] raises [ZeroDivisionError]. *)
Theorem epoch_empty_validation (randperm : nat -> list nat) (w : World)
    (reports : list Report) (epoch : nat) (t : World * float) :
  data valid_dataset = [] ->
  train_phase (randperm epoch) w = Ok t ->
  epoch_body randperm (w, reports) epoch = Raise ZeroDivisionError.
Proof.
  intros Hempty Ht. unfold epoch_body. simpl. rewrite Ht. simpl.
  unfold valid_phase, batches, sampler, __len__.
  cbn [val_loader shuffle batch_size dataset]. by rewrite Hempty.
Qed.

(** ** Further results on the inference pass *)

(** X17: over an empty test index the pass still writes its predictions, a
    table without rows, and only then fails: the accuracy it goes on to
    print raises [ZeroDivisionError]. *)
Theorem inference_empty (w : World) :
  data test_dataset = [] ->
  inference w = Ok ([], Raise ZeroDivisionError).
Proof.
  intros Hempty. unfold inference, batches, sampler, __len__.
  cbn [test_loader shuffle batch_size dataset]. by rewrite Hempty.
Qed.

(** X18: the pass stops with [KeyError] at its first sample when the
    dataset is not in test mode (the batch has no [im_name]) or when the
    arg-max class of the sample is not a key of [cat_to_index]; nothing is
    written. *)
Theorem inference_key_error (w : World) (s : Sample) :
  __getitem__ test_dataset 0 = Ok s ->
  mode test_dataset <> "test"%string \/ cat_to_index !! predict w (im s) = None ->
  inference w = Raise KeyError.
Proof.
  intros Hs Hbad. unfold inference, batches, sampler.
  cbn [test_loader shuffle batch_size dataset]. rewrite batch_sampler_one.
  pose proof (getitem_Ok _ _ _ Hs) as (r & Hr & _ & Hname).
  apply lookup_lt_Some in Hr. unfold __len__.
  destruct (length (data test_dataset)) as [|n]; [lia|].
  cbn [seq map for_each]. rewrite infer_iteration_one by done.
  fold test_loader. cbn [bind]. rewrite Hs. cbn [bind].
  destruct (im_name s) as [name|]; [|done]. cbn [of_option bind].
  destruct Hbad as [Hmode|Hcls].
  - exfalso. apply String.eqb_neq in Hmode. by rewrite Hmode in Hname.
  - change (predict (eval_mode w) (im s)) with (predict w (im s)).
    by rewrite Hcls.
Qed.

Lemma basename_no_slash (p : string) :
  existsb (Ascii.eqb "/"%char) (list_ascii_of_string (basename p)) = false.
Proof.
  induction p as [|c p IH]; [done|]. cbn [basename].
  destruct (Ascii.eqb c "/") eqn:Hc; [done|].
  destruct (existsb (Ascii.eqb "/"%char) (list_ascii_of_string p)) eqn:Hp; [done|].
  cbn [list_ascii_of_string existsb]. rewrite Hp, orb_false_r.
  by rewrite Ascii.eqb_sym.
Qed.

(** X19: no file_name of the written predictions contains a slash. *)
Theorem predictions_without_directory (w : World) (df : list (string * string))
    (acc : result float) :
  inference w = Ok (df, acc) ->
  Forall (fun kv => existsb (Ascii.eqb "/"%char) (list_ascii_of_string kv.1) = false)
    df.
Proof.
  intros Hinf. destruct (inference_writes _ _ _ Hinf) as (recs & Hrecs & ->).
  apply Forall_forall. intros [k v] Hkv.
  assert (Hk : k ∈ (foldl write [] recs).*1)
    by (apply list_elem_of_fmap; by exists (k, v)).
  apply writes_keys in Hk as [Hk|Hk]; [inversion Hk|].
  rewrite (records_keys _ _ _ Hrecs) in Hk.
  apply list_elem_of_fmap in Hk as (r & -> & _). apply basename_no_slash.
Qed.



(** ** Results on the train / test split *)

Lemma digits2_pos_le (p : positive) (a : Z) :
  (0 <= a)%Z -> (Zpos p < 2 ^ a)%Z -> (Zpos (digits2_pos p) <= a)%Z.
Proof.
  revert a. induction p as [p IH|p IH|]; intros a Ha Hp; cbn [digits2_pos].
  - assert (a <> 0)%Z by (intros ->; simpl in Hp; lia).
    replace a with (Z.succ (a - 1)) in Hp by lia.
    rewrite Z.pow_succ_r in Hp by lia.
    specialize (IH (a - 1)%Z). lia.
  - assert (a <> 0)%Z by (intros ->; simpl in Hp; lia).
    replace a with (Z.succ (a - 1)) in Hp by lia.
    rewrite Z.pow_succ_r in Hp by lia.
    specialize (IH (a - 1)%Z). lia.
  - assert (a <> 0)%Z by (intros ->; simpl in Hp; lia). lia.
Qed.

Lemma Zdigits2_le (m a : Z) :
  (0 <= a)%Z -> (0 <= m < 2 ^ a)%Z -> (Zdigits2 m <= a)%Z.
Proof.
  intros Ha [Hm Hlt]. destruct m as [|p|p]; simpl; [lia| |lia].
  by apply digits2_pos_le.
Qed.

Lemma iter_pos_invariant {A : Type} (P : A -> Prop) (f : A -> A) :
  (forall x, P x -> P (f x)) -> forall p x, P x -> P (SpecFloat.iter_pos f p x).
Proof.
  intros Hf. induction p as [p IH|p IH|]; intros x Hx; simpl; auto.
Qed.

Lemma shr_1_bounded (M : Z) (mrs : shr_record) :
  (0 <= shr_m mrs <= M)%Z -> (0 <= shr_m (shr_1 mrs) <= M)%Z.
Proof.
  destruct mrs as [m r s]. simpl. destruct m as [|[p|p|]|p]; simpl; lia.
Qed.

Lemma shr_bounded (M : Z) (mrs : shr_record) (e n : Z) :
  (0 <= shr_m mrs <= M)%Z ->
  (0 <= shr_m (shr mrs e n).1 <= M)%Z
  /\ ((shr mrs e n).2 = e \/ (shr mrs e n).2 = (e + n)%Z).
Proof.
  intros Hm. destruct n as [|p|p]; simpl; auto. split; [|auto].
  apply (iter_pos_invariant (fun x => (0 <= shr_m x <= M)%Z)); [|done].
  apply shr_1_bounded.
Qed.

Lemma round_nearest_even_bounded (m : Z) (l : location) :
  (m <= round_nearest_even m l <= m + 1)%Z.
Proof. destruct l as [|[]]; simpl; try lia. destruct (Z.even m); lia. Qed.

(** Rounding a bounded mantissa gives a zero or a finite float of the same
    sign. *)
Lemma binary_round_aux_bounded (sx : bool) (mx ex a b : Z) :
  (0 <= mx < 2 ^ a)%Z -> (0 <= a)%Z -> (ex <= b)%Z -> (0 <= b)%Z ->
  (2 * a + b <= 900)%Z ->
  match binary_round_aux prec emax sx mx ex loc_Exact with
  | S754_zero s => s = sx
  | S754_finite s m e => s = sx /\ (Zpos m < 2 ^ (a + 1))%Z /\ (e <= 2 * a + b + 1)%Z
  | S754_infinity _ | S754_nan => False
  end.
Proof.
  intros Hmx Ha Hex Hb Hab. unfold binary_round_aux, shr_fexp.
  pose proof (Zdigits2_le mx a Ha Hmx) as Hd.
  pose proof (shr_bounded mx (shr_record_of_loc mx loc_Exact) ex
                (fexp prec emax (Zdigits2 mx + ex) - ex)) as [Hm1 He1];
    [simpl; lia|].
  destruct (shr _ ex _) as [mrs1 e1]. cbn [fst snd] in Hm1, He1.
  pose proof (round_nearest_even_bounded (shr_m mrs1) (loc_of_shr_record mrs1)) as Hr.
  set (m1 := round_nearest_even _ _) in *.
  assert (Hpow : (2 ^ (a + 1) = 2 * 2 ^ a)%Z)
    by (rewrite Z.pow_add_r by lia; lia).
  assert (Hd1 : (Zdigits2 m1 <= a + 1)%Z) by (apply Zdigits2_le; lia).
  pose proof (shr_bounded m1 (shr_record_of_loc m1 loc_Exact) e1
                (fexp prec emax (Zdigits2 m1 + e1) - e1)) as [Hm2 He2];
    [simpl; lia|].
  destruct (shr _ e1 _) as [mrs2 e2]. cbn [fst snd] in Hm2, He2.
  assert (He1' : (e1 <= a + b)%Z).
  { destruct He1 as [->| ->]; [lia|]. unfold fexp, emin, prec, emax. lia. }
  assert (He2' : (e2 <= 2 * a + b + 1)%Z).
  { destruct He2 as [->| ->]; [lia|]. unfold fexp, emin, prec, emax. lia. }
  destruct (shr_m mrs2) as [|p|p]; [done| |lia].
  replace (e2 <=? emax - prec)%Z with true
    by (symmetry; apply Z.leb_le; unfold prec, emax; lia).
  repeat split; [lia|done].
Qed.

Lemma iter_xO (m d : positive) :
  Zpos (Pos.iter xO m d) = (Zpos m * 2 ^ Zpos d)%Z.
Proof.
  induction d as [|d IH] using Pos.peano_ind.
  - simpl. lia.
  - rewrite Pos.iter_succ, Pos2Z.inj_succ, Z.pow_succ_r by lia.
    rewrite Pos2Z.inj_xO, IH. lia.
Qed.

Lemma of_uint63_bounded (n : int) :
  match Prim2SF (of_uint63 n) with
  | S754_zero s => s = false
  | S754_finite s m e => s = false /\ (Zpos m < 2 ^ 117)%Z /\ (e <= 233)%Z
  | S754_infinity _ | S754_nan => False
  end.
Proof.
  rewrite of_uint63_spec.
  pose proof (Uint63.to_Z_bounded n) as Hn.
  destruct (Uint63.to_Z n) as [|m|m]; [done| |lia].
  cbn [binary_normalize]. unfold binary_round, shl_align.
  assert (Hd : (Zpos (digits2_pos m) <= 63)%Z).
  { apply digits2_pos_le; [lia|]. change (2 ^ 63)%Z with wB. lia. }
  assert (Hd0 : (0 < Zpos (digits2_pos m))%Z) by lia.
  set (ex' := fexp prec emax (Zpos (digits2_pos m) + 0)).
  assert (Hex' : (- 53 < ex' <= 10)%Z) by (unfold ex', fexp, emin, prec, emax; lia).
  destruct (ex' - 0)%Z as [|d|d] eqn:Hsub.
  - apply (binary_round_aux_bounded false (Zpos m) 0 116 0); try lia.
    split; [lia|]. eapply Z.lt_le_trans; [apply Hn|]. by vm_compute.
  - apply (binary_round_aux_bounded false (Zpos m) 0 116 0); try lia.
    split; [lia|]. eapply Z.lt_le_trans; [apply Hn|]. by vm_compute.
  - apply (binary_round_aux_bounded false (Zpos (Pos.iter xO m d)) ex' 116 0);
      try lia.
    split; [lia|]. rewrite iter_xO.
    assert (Zpos d < 53)%Z by lia.
    assert (0 < 2 ^ Zpos d < 2 ^ 53)%Z
      by (split; [apply Z.pow_pos_nonneg|apply Z.pow_lt_mono_r]; lia).
    assert (Zpos m < 2 ^ 63)%Z by (change (2 ^ 63)%Z with wB; lia).
    replace (2 ^ 116)%Z with (2 ^ 63 * 2 ^ 53)%Z by (by vm_compute).
    apply Z.mul_lt_mono_nonneg; lia.
Qed.

Lemma round_half_even_nonneg (m : positive) (e : Z) :
  (0 <= round_half_even m e)%Z.
Proof.
  unfold round_half_even. destruct e as [|p|p].
  - lia.
  - apply Z.mul_nonneg_nonneg; [lia|]. apply Z.pow_nonneg. lia.
  - assert (0 <= Zpos m / 2 ^ Zpos p)%Z
      by (apply Z.div_pos; [lia|]; apply Z.pow_pos_nonneg; lia).
    destruct (_ ?= _)%Z; [destruct (Z.even _)| |]; lia.
Qed.

(** [round(len(im_list) * c)] returns, and is not negative, for a positive
    literal [c] below one. *)
Lemma round_share (n : nat) (c : float) (my : positive) (ey : Z) :
  Prim2SF c = S754_finite false my ey ->
  (Zpos my < 2 ^ 53)%Z -> (ey <= 0)%Z ->
  exists z, round (PrimFloat.mul (float_of_nat n) c) = Some z /\ (0 <= z)%Z.
Proof.
  intros Hc Hmy Hey. unfold round, float_of_nat.
  rewrite mul_spec, Hc. unfold SF64mul.
  pose proof (of_uint63_bounded (Uint63.of_Z (Z.of_nat n))) as Hx.
  destruct (Prim2SF (of_uint63 _)) as [s|s| |s m e]; try done.
  - exists 0%Z. by simpl.
  - destruct Hx as (-> & Hm & He). cbn [SFmul xorb].
    pose proof (binary_round_aux_bounded false (Zpos (m * my)) (e + ey) 170 233)
      as Hr.
    destruct (binary_round_aux _ _ _ _ _ _) as [s'|s'| |s' m' e'].
    + exists 0%Z. by simpl.
    + exfalso. apply Hr; try lia. split; [lia|].
      rewrite Pos2Z.inj_mul.
      replace (2 ^ 170)%Z with (2 ^ 117 * 2 ^ 53)%Z by (by vm_compute).
      apply Z.mul_lt_mono_nonneg; lia.
    + exfalso. apply Hr; try lia. split; [lia|].
      rewrite Pos2Z.inj_mul.
      replace (2 ^ 170)%Z with (2 ^ 117 * 2 ^ 53)%Z by (by vm_compute).
      apply Z.mul_lt_mono_nonneg; lia.
    + destruct Hr as (-> & _); try lia.
      * split; [lia|]. rewrite Pos2Z.inj_mul.
        replace (2 ^ 170)%Z with (2 ^ 117 * 2 ^ 53)%Z by (by vm_compute).
        apply Z.mul_lt_mono_nonneg; lia.
      * eexists. split; [done|]. apply round_half_even_nonneg.
Qed.

Lemma slice_from_start {A : Type} (l : list A) (b : Z) :
  (0 <= b)%Z -> slice l 0 b = take (Z.to_nat b) l.
Proof.
  intros Hb. unfold slice, slice_index.
  replace (0 <? 0)%Z with false by done.
  replace (b <? 0)%Z with false by (symmetry; apply Z.ltb_ge; lia).
  replace (Z.to_nat (Z.min 0 (Z.of_nat (length l)))) with 0 by lia.
  rewrite drop_0.
  destruct (decide (b <= Z.of_nat (length l))%Z).
  - f_equal. lia.
  - rewrite !take_ge; [done|lia|lia].
Qed.

Lemma slice_take_drop {A : Type} (l : list A) (a b : nat) :
  slice l (Z.of_nat a) (Z.of_nat (a + b)) = take b (drop a l).
Proof.
  unfold slice, slice_index.
  replace (Z.of_nat a <? 0)%Z with false by (symmetry; apply Z.ltb_ge; lia).
  replace (Z.of_nat (a + b) <? 0)%Z with false by (symmetry; apply Z.ltb_ge; lia).
  destruct (decide (a <= length l)) as [Ha|Ha].
  - replace (Z.to_nat (Z.min (Z.of_nat a) (Z.of_nat (length l)))) with a by lia.
    destruct (decide (a + b <= length l)).
    + f_equal. lia.
    + rewrite !take_ge; [done|rewrite length_drop; lia|rewrite length_drop; lia].
  - rewrite (drop_ge l a) by lia. rewrite drop_ge by lia. by rewrite !take_nil.
Qed.

(** X21: the split cell never raises, whatever the shuffled list: it tags
    the first [t] images train, the next [v] valid and the next [v] test,
    [t] and [v] being [round(len * 0.8)] and [round(len * 0.1)] (fewer
    where the list ends before); the three lists are consecutive pieces of
    the list, so an image is tagged once at most. *)
Theorem tags_dict_consecutive (im_list : list string) :
  exists t v : nat,
    round (PrimFloat.mul (float_of_nat (length im_list)) train_share)
      = Some (Z.of_nat t)
    /\ round (PrimFloat.mul (float_of_nat (length im_list)) valid_share)
      = Some (Z.of_nat v)
    /\ tags_dict im_list
       = Some [("train"%string, take t im_list);
               ("valid"%string, take v (drop t im_list));
               ("test"%string, take v (drop (t + v) im_list))]
    /\ (take t im_list ++ take v (drop t im_list)
          ++ take v (drop (t + v) im_list))%list
       = take (t + v + v) im_list.
Proof.
  destruct (round_share (length im_list) train_share 7205759403792794 (-53))
    as (zt & Ht & Hzt); [by vm_compute|by vm_compute|lia|].
  destruct (round_share (length im_list) valid_share 7205759403792794 (-56))
    as (zv & Hv & Hzv); [by vm_compute|by vm_compute|lia|].
  destruct (Z_of_nat_complete zt Hzt) as [t ->].
  destruct (Z_of_nat_complete zv Hzv) as [v ->].
  exists t, v. repeat split; [done|done| |].
  - unfold tags_dict. rewrite Ht, Hv. cbn [mbind option_bind].
    rewrite slice_from_start, Nat2Z.id by lia.
    rewrite <- !Nat2Z.inj_add. by rewrite !slice_take_drop.
  - by rewrite app_assoc, !take_take_drop.
Qed.

End Notebook.

Arguments FlowerDataset : clear implicits.
Arguments Sample : clear implicits.
Arguments Batch : clear implicits.
Arguments DataLoader : clear implicits.
Arguments Param : clear implicits.
Arguments Net : clear implicits.
Arguments Optimizer : clear implicits.
Arguments World : clear implicits.

(** * A run on a small dataset

    Eleven annotated files, ten of them tagged (eight train, one valid, one
    test), and a tag for a file that has no annotation.  An image is stood
    for by its path; the network of the run has one backbone parameter and
    a head of two, and scores an image by the parity of the length of its
    path. *)

Local Open Scope string_scope.

Definition demo_annotations : frame :=
  [("/d/0/a.jpg", CInt 0); ("/d/0/b.jpg", CInt 0); ("/d/0/c.jpg", CInt 0);
   ("/d/1/a.jpg", CInt 1); ("/d/1/b.jpg", CInt 1); ("/d/1/c.jpg", CInt 1);
   ("/d/1/d.jpg", CInt 1); ("/d/2/a.jpg", CInt 2); ("/d/2/b.jpg", CInt 2);
   ("/d/2/c.jpg", CInt 2); ("/d/2/e.jpg", CInt 2)].

Definition demo_splits : frame :=
  [("/d/2/c.jpg", CStr "train"); ("/d/0/a.jpg", CStr "train");
   ("/d/1/b.jpg", CStr "train"); ("/d/1/a.jpg", CStr "valid");
   ("/d/0/c.jpg", CStr "train"); ("/d/2/a.jpg", CStr "test");
   ("/d/1/c.jpg", CStr "train"); ("/d/0/b.jpg", CStr "train");
   ("/d/2/b.jpg", CStr "train"); ("/d/1/d.jpg", CStr "train");
   ("/d/0/z.jpg", CStr "test")].

Definition no_dataset : FlowerDataset string :=
  {| mapping := None; transform := None; mode := EmptyString; data := [] |}.

Definition or_empty (r : result (FlowerDataset string)) : FlowerDataset string :=
  match r with
  | Ok ds => ds
  | Raise _ => no_dataset
  end.

Definition demo_train : FlowerDataset string :=
  Eval vm_compute in
    or_empty (__init__ demo_annotations demo_splits None "train" None).

Definition demo_valid : FlowerDataset string :=
  Eval vm_compute in
    or_empty (__init__ demo_annotations demo_splits None "valid" None).

Definition demo_test : FlowerDataset string :=
  Eval vm_compute in
    or_empty (__init__ demo_annotations demo_splits None "test" None).

(** A test index with two files of the same name in two folders. *)
Definition twin_test : FlowerDataset string :=
  Eval vm_compute in
    or_empty (__init__ [("a/x.jpg", CInt 1); ("bb/x.jpg", CInt 0)]
                [("a/x.jpg", CStr "test"); ("bb/x.jpg", CStr "test")]
                None "test" None).

(** A test index whose class names are resolved through the mapping of the
    lookup scenario. *)
Definition mapped_test : FlowerDataset string :=
  Eval vm_compute in
    or_empty (__init__ [("/d/2/a.jpg", CStr "Canterbury Bells")]
                [("/d/2/a.jpg", CStr "test")]
                (Some flower_mapping) "test" None).

Definition demo_open (f : string) : option string := Some f.

Definition demo_int (s : string) : option Z := None.

Definition demo_forward_train (ps : list Z) (bufs : nat) (ims : list string)
  : list Z * nat :=
  (map (fun _ => 0%Z) ims, S bufs).

Definition demo_forward_eval (ps : list Z) (bufs : nat) (im : string) : Z :=
  if Nat.even (String.length im) then 0%Z else 1%Z.

Definition demo_criterion (outputs labels : list Z) : Z :=
  (2 * Z.of_nat (length labels))%Z.

Definition demo_item (loss : Z) : float := PrimFloat.of_uint63 (Uint63.of_Z loss).

Definition demo_grad_of (loss : Z) : list Z := [loss; loss; loss].

Definition demo_adam (m : unit) (l : list (Z * option Z)) : unit * list Z :=
  (tt, map (fun vg => (vg.1 - default 0 vg.2)%Z) l).

Definition demo_resnet18 : Net nat :=
  {| backbone := [0]; fc := [1]; training := false; buffers := 0 |}.

Definition demo_store : list (Param Z) :=
  [ {| value := 10%Z; grad := None; requires_grad := true; required_grad := None |};
    {| value := 20%Z; grad := None; requires_grad := true; required_grad := None |} ].

Definition demo_world : World Z nat unit :=
  setup tt [5%Z; 7%Z] demo_resnet18 demo_store.

Definition demo_perm (epoch : nat) : list nat := [3; 1; 4; 0; 5; 2; 7; 6].

Definition demo_batches : list (Batch string) :=
  Eval vm_compute in
    match fetch_all demo_open demo_int (train_loader demo_train)
            (batches (train_loader demo_train) (demo_perm 0)) with
    | Ok bs => bs
    | Raise _ => []
    end.

Definition demo_valid_samples : list (Sample string) :=
  Eval vm_compute in
    match fetch_samples demo_open demo_int demo_valid (seq 0 (__len__ demo_valid)) with
    | Ok ss => ss
    | Raise _ => []
    end.

Definition demo_trained : World Z nat unit * list Report :=
  Eval vm_compute in
    match training_loop demo_open demo_int demo_forward_train demo_forward_eval
            demo_criterion demo_item demo_grad_of Z.add demo_adam id
            demo_train demo_valid 2 demo_perm demo_world with
    | Ok r => r
    | Raise _ => (demo_world, [])
    end.

(** The predictions written for the index with the two files named [x.jpg]. *)
Definition demo_inferred : list (string * string) * result float :=
  Eval vm_compute in
    match inference demo_open demo_int demo_forward_train demo_forward_eval id
            twin_test demo_world with
    | Ok r => r
    | Raise _ => ([], Raise KeyError)
    end.









(** ** The theorems at the run *)

Lemma demo_datasets_init :
  __init__ demo_annotations demo_splits None "train" None = Ok demo_train
  /\ __init__ demo_annotations demo_splits None "valid" None = Ok demo_valid
  /\ __init__ demo_annotations demo_splits None "test" None = Ok demo_test.
Proof. repeat split; vm_compute; reflexivity. Qed.


Lemma demo_splits_NoDup : NoDup (demo_splits.*1).
Proof. compute_done. Qed.

Lemma demo_world_wf : wf_world demo_world.
Proof.
  apply setup_wf.
  - apply NoDup_singleton.
  - repeat constructor.
Qed.

Lemma demo_predict_known (w : World Z nat unit) (img : string) :
  is_Some (cat_to_index !! predict demo_forward_eval id w img).
Proof.
  unfold predict, scores, demo_forward_eval.
  destruct (Nat.even (String.length img)); by eexists.
Qed.



(** C5 at the run: [/d/2/e.jpg] is annotated and has no tag. *)
Lemma unmatched_annotation_excluded_witness :
  (forall ds,
     __init__ (Img := string) demo_annotations demo_splits None "train" None = Ok ds ->
     (exists rows, set_tag demo_annotations demo_splits = Ok rows
        /\ forall r, r ∈ rows -> file_name r = "/d/2/e.jpg" -> tag r = CNaN)
     /\ forall r, r ∈ data ds -> file_name r <> "/d/2/e.jpg")
  /\ (NoDup (demo_splits.*1) ->
      exists ds,
        __init__ (Img := string) demo_annotations demo_splits None "train" None = Ok ds).
Proof.
  apply (unmatched_annotation_excluded demo_annotations demo_splits None "train" None
           "/d/2/e.jpg" (CInt 2)).
  - compute_done.
  - compute_done.
Defined.



(** C3 at the run: two batches, of five and three samples, whose losses are
    10 and 6; the loss reported is 16 / 8. *)
Lemma training_loss_reported_witness :
  exists w',
    train_phase demo_open demo_int demo_forward_train demo_forward_eval
      demo_criterion demo_item demo_grad_of Z.add demo_adam demo_train
      (demo_perm 0) demo_world
    = Ok (w', 2%float).
Proof.
  apply (training_loss_reported demo_open demo_int demo_forward_train
           demo_forward_eval demo_criterion demo_item demo_grad_of Z.add demo_adam
           demo_train (demo_perm 0) demo_world demo_batches).
  - vm_compute. reflexivity.
  - vm_compute. discriminate.
Defined.



(** C6 at the run: after two epochs the backbone parameter is still 10. *)
Lemma backbone_unchanged_witness :
  (forall a, a ∉ fc (model demo_world) ->
     value <$> heap demo_trained.1 !! a = value <$> heap demo_world !! a)
  /\ (forall a, a ∈ backbone demo_resnet18 ->
        value <$> heap demo_trained.1 !! a = value <$> demo_store !! a).
Proof.
  apply (backbone_unchanged demo_open demo_int demo_forward_train demo_forward_eval
           demo_criterion demo_item demo_grad_of Z.add demo_adam id tt
           demo_train demo_valid [5%Z; 7%Z] demo_resnet18 demo_store 2 demo_perm
           demo_trained.1 demo_trained.2).
  - repeat constructor.
  - vm_compute. reflexivity.
Defined.

(** C7 at the run: the two batches of the first epoch. *)
Lemma train_batches_in_order_witness :
  for_each
    (train_iteration demo_open demo_int demo_forward_train demo_forward_eval
       demo_criterion demo_item demo_grad_of Z.add demo_adam demo_train)
    (batches (train_loader demo_train) (demo_perm 0))
    (train_mode demo_world, 0%float)
  = Ok (foldl (fun w b =>
                 (train_batch_spec demo_forward_train demo_forward_eval
                    demo_criterion demo_item demo_grad_of Z.add demo_adam w b).1)
          (train_mode demo_world) demo_batches,
        fold_left PrimFloat.add
          (batch_losses demo_forward_train demo_forward_eval demo_criterion
             demo_item demo_grad_of Z.add demo_adam (train_mode demo_world)
             demo_batches)
          0%float)
  /\ steps (optimizer
              (foldl (fun w b =>
                        (train_batch_spec demo_forward_train demo_forward_eval
                           demo_criterion demo_item demo_grad_of Z.add demo_adam
                           w b).1)
                 (train_mode demo_world) demo_batches))
     = steps (optimizer (train_mode demo_world)) + length demo_batches
  /\ forall bs1 b bs2 i a g,
       demo_batches = (bs1 ++ b :: bs2)%list ->
       let wk :=
         foldl (fun w b =>
                  (train_batch_spec demo_forward_train demo_forward_eval
                     demo_criterion demo_item demo_grad_of Z.add demo_adam w b).1)
           (train_mode demo_world) bs1 in
       fc (model wk) !! i = Some a ->
       demo_grad_of
         (batch_loss_tensor demo_forward_train demo_forward_eval demo_criterion wk b)
         !! (length (backbone (model wk)) + i) = Some g ->
       train_batch_spec demo_forward_train demo_forward_eval demo_criterion
         demo_item demo_grad_of Z.add demo_adam wk b
       = (step demo_adam
            (before_step demo_forward_train demo_forward_eval demo_criterion
               demo_grad_of Z.add wk b),
          batch_loss demo_forward_train demo_forward_eval demo_criterion
            demo_item wk b)
       /\ grad <$> heap (before_step demo_forward_train demo_forward_eval
                           demo_criterion demo_grad_of Z.add wk b) !! a
          = Some (Some g).
Proof.
  apply (train_batches_in_order demo_open demo_int demo_forward_train
           demo_forward_eval demo_criterion demo_item demo_grad_of Z.add demo_adam
           demo_train).
  - apply train_mode_wf, demo_world_wf.
  - vm_compute. reflexivity.
Defined.

Lemma twin_test_fetched (i : nat) :
  i < __len__ twin_test ->
  exists s, __getitem__ demo_open demo_int twin_test i = Ok s.
Proof.
  intros Hi. destruct i as [|[|i]]; [by eexists | by eexists |].
  unfold __len__ in Hi. simpl in Hi. lia.
Qed.

(** C4 (as amended) at a test index with two files named [x.jpg]. *)
Lemma predictions_rows_witness :
  exists df acc,
    inference demo_open demo_int demo_forward_train demo_forward_eval id
      twin_test demo_world = Ok (df, acc)
    /\ length df = length (remove_dups (key <$> data twin_test))
    /\ forall r, r ∈ data twin_test ->
         length (filter (fun kv => kv.1 = key r) df) = 1.
Proof.
  apply (predictions_rows demo_open demo_int demo_forward_train demo_forward_eval
           id twin_test demo_world).
  - reflexivity.
  - exact twin_test_fetched.
  - exact (demo_predict_known demo_world).
Defined.

(** C4 as stated fails there: the test index has two distinct file names,
    the predictions have one row, and neither file name is in them. *)
Lemma predictions_rows_counterexample :
  NoDup (file_name <$> data twin_test)
  /\ length (file_name <$> data twin_test) = 2
  /\ exists df acc,
       inference demo_open demo_int demo_forward_train demo_forward_eval id
         twin_test demo_world = Ok (df, acc)
       /\ length df = 1
       /\ Forall (fun f => f ∉ df.*1) (file_name <$> data twin_test).
Proof.
  split; [compute_done|]. split; [reflexivity|].
  exists demo_inferred.1, demo_inferred.2. split; [vm_compute; reflexivity|].
  split; [reflexivity | compute_done].
Qed.

(** C9 (as amended) at the test index of the run. *)
Lemma prediction_recorded_witness :
  exists img cls,
    row_image demo_open demo_test (Row "/d/2/a.jpg" (CInt 2) (CStr "test")) = Some img
    /\ cat_to_index !! predict demo_forward_eval id demo_world img = Some cls
    /\ ((forall j r', 0 < j -> data demo_test !! j = Some r' ->
           key r' <> key (Row "/d/2/a.jpg" (CInt 2) (CStr "test"))) ->
        (key (Row "/d/2/a.jpg" (CInt 2) (CStr "test")), cls)
          ∈ [("a.jpg", "Pink Primrose")]).
Proof.
  apply (prediction_recorded demo_open demo_int demo_forward_train
           demo_forward_eval id demo_test demo_world
           [("a.jpg", "Pink Primrose")] (Ok 0%float) 0).
  - vm_compute. reflexivity.
  - reflexivity.
Defined.

(** C9 as stated fails: without a mapping the class id 0 is recorded as
    "Pink Primrose", not as the id; with the mapping of the lookup scenario
    it is recorded as "Pink Primrose" too, which is not a key of the
    mapping. *)
Lemma prediction_recorded_counterexample :
  (mapping demo_test = None
   /\ predict demo_forward_eval id demo_world "/d/2/a.jpg" = 0%Z
   /\ inference demo_open demo_int demo_forward_train demo_forward_eval id
        demo_test demo_world = Ok ([("a.jpg", "Pink Primrose")], Ok 0%float)
   /\ spec_class_name (mapping demo_test) 0 = Some "0"
   /\ spec_class_name (mapping demo_test) 0 <> Some "Pink Primrose")
  /\ (mapping mapped_test = Some flower_mapping
      /\ inference demo_open demo_int demo_forward_train demo_forward_eval id
           mapped_test demo_world = Ok ([("a.jpg", "Pink Primrose")], Ok 0%float)
      /\ spec_class_name (mapping mapped_test) 0 = Some "pink primrose"
      /\ spec_class_name (mapping mapped_test) 0 <> Some "Pink Primrose").
Proof. repeat split; try (vm_compute; reflexivity); vm_compute; discriminate. Qed.

(** C10 at the test index with two files named [x.jpg]: the one row of the
    predictions holds the class of the second. *)
Lemma predictions_keyed_by_basename_witness :
  (forall k, k ∈ demo_inferred.1.*1
     <-> exists r, r ∈ data twin_test /\ k = basename (file_name r))
  /\ forall i j ri rj,
       i < j ->
       data twin_test !! i = Some ri ->
       data twin_test !! j = Some rj ->
       basename (file_name ri) = basename (file_name rj) ->
       (forall j' r', j < j' -> data twin_test !! j' = Some r' ->
          basename (file_name r') <> basename (file_name rj)) ->
       exists img cls,
         row_image demo_open twin_test rj = Some img
         /\ cat_to_index !! predict demo_forward_eval id demo_world img = Some cls
         /\ forall v, (basename (file_name ri), v) ∈ demo_inferred.1 <-> v = cls.
Proof.
  apply (predictions_keyed_by_basename demo_open demo_int demo_forward_train
           demo_forward_eval id twin_test demo_world demo_inferred.1
           demo_inferred.2).
  vm_compute. reflexivity.
Defined.

(** ** Further results at the run *)

(** A dataset whose mapping has a capitalised key only. *)
Definition capital_dataset : FlowerDataset string :=
  {| mapping := Some {["Pink Primrose" := 0%Z]}; transform := None; mode := "train";
     data := [Row "/d/0/a.jpg" (CStr "Pink Primrose") (CStr "train")] |}.

(** The world and the loss after the training phase of the first epoch. *)
Definition demo_epoch : World Z nat unit * float :=
  Eval vm_compute in
    match train_phase demo_open demo_int demo_forward_train demo_forward_eval
            demo_criterion demo_item demo_grad_of Z.add demo_adam demo_train
            (demo_perm 0) demo_world with
    | Ok r => r
    | Raise _ => (demo_world, 0%float)
    end.

(** The one sample of the test index of the run. *)
Definition demo_test_sample : Sample string :=
  {| im := "/d/2/a.jpg"; labels := 2%Z; im_name := Some "/d/2/a.jpg" |}.

(** The first sample of the train index of the run. *)
Definition demo_train_sample : Sample string :=
  {| im := "/d/0/a.jpg"; labels := 0%Z; im_name := None |}.

(** A batch of one image and a batch of two, and the world after the first
    of them. *)
Definition demo_batch : Batch string :=
  {| b_im := ["/d/0/a.jpg"]; b_labels := [0%Z]; b_im_name := None |}.

Definition demo_batch_two : Batch string :=
  {| b_im := ["/d/0/b.jpg"; "/d/1/a.jpg"]; b_labels := [0%Z; 1%Z];
     b_im_name := None |}.

Definition demo_after_batch : World Z nat unit :=
  (train_batch demo_forward_train demo_forward_eval demo_criterion demo_item
     demo_grad_of Z.add demo_adam demo_world demo_batch).1.




(** X1 at the run: the file [/d/0/a.jpg] is in the train index and not in
    the valid index. *)
Lemma split_files_disjoint_witness :
  "/d/0/a.jpg" ∈ file_name <$> data demo_train
  /\ "/d/0/a.jpg" ∉ file_name <$> data demo_valid.
Proof.
  assert (Hin : "/d/0/a.jpg" ∈ file_name <$> data demo_train) by constructor.
  split; [exact Hin|].
  apply (split_files_disjoint (Img := string) demo_annotations demo_splits None None
           "train" "valid" None None demo_train demo_valid "/d/0/a.jpg").
  - exact demo_splits_NoDup.
  - vm_compute. reflexivity.
  - vm_compute. reflexivity.
  - discriminate.
  - exact Hin.
Defined.

(** X3 at a tags table with a file_name twice, which is not the index of the
    annotations. *)
Lemma init_raises_witness :
  __init__ (Img := string) [("a.jpg", CInt 0)]
    [("b.jpg", CStr "train"); ("b.jpg", CStr "test")] None "train" None
  = Raise ValueError.
Proof.
  apply (init_raises (Img := string) [("a.jpg", CInt 0)]
           [("b.jpg", CStr "train"); ("b.jpg", CStr "test")] None "train" None
           ValueError).
  - discriminate.
  - split; [reflexivity|]. split; [discriminate|].
    intros Hnd. apply NoDup_cons in Hnd as [Hnotin _]. apply Hnotin. constructor.
Defined.

(** X2 at the run. *)
Lemma init_keeps_order_witness :
  (fun r => (file_name r, class_name r)) <$> data demo_train
  `sublist_of` demo_annotations.
Proof.
  apply (init_keeps_order (Img := string) demo_annotations demo_splits None "train"
           None demo_train).
  - discriminate.
  - vm_compute. reflexivity.
Defined.

(** X4 at the run: ten of the eleven annotations are in an index. *)
Lemma splits_total_witness :
  __len__ demo_train + __len__ demo_valid + __len__ demo_test
  <= length demo_annotations.
Proof.
  apply (splits_total (Img := string) demo_annotations demo_splits None None None
           None None None demo_train demo_valid demo_test).
  - discriminate.
  - vm_compute. reflexivity.
  - vm_compute. reflexivity.
  - vm_compute. reflexivity.
Defined.

(** X5 at the run: the test index has one row. *)
Lemma getitem_out_of_range_witness :
  __getitem__ demo_open demo_int demo_test 1 = Raise KeyError.
Proof.
  apply (getitem_out_of_range demo_open demo_int demo_test 1).
  unfold __len__. simpl. lia.
Defined.


(** X7 at the run: the test sample. *)
Lemma getitem_sample_witness :
  exists r img,
    data demo_test !! 0 = Some r
    /\ demo_open (file_name r) = Some img
    /\ match transform demo_test with Some t => t img | None => Ok img end
       = Ok (im demo_test_sample)
    /\ (mode demo_test = "test" -> im_name demo_test_sample = Some (file_name r))
    /\ (mode demo_test <> "test" -> im_name demo_test_sample = None).
Proof.
  apply (getitem_sample demo_open demo_int demo_test 0 demo_test_sample).
  reflexivity.
Defined.

(** X8 at a mapping whose one key is "Pink Primrose". *)
Lemma getitem_uppercase_keys_witness :
  __getitem__ demo_open demo_int capital_dataset 0 = Raise KeyError.
Proof.
  apply (getitem_uppercase_keys demo_open demo_int capital_dataset
           {["Pink Primrose" := 0%Z]} 0
           (Row "/d/0/a.jpg" (CStr "Pink Primrose") (CStr "train")) "Pink Primrose").
  - reflexivity.
  - reflexivity.
  - reflexivity.
  - intros k [v Hk]. apply lookup_singleton_Some in Hk as [<- _]. discriminate.
Defined.

(** X10 at the run: eight indices in two batches. *)
Lemma loader_batches_witness :
  concat (batches (train_loader demo_train) (demo_perm 0))
  = sampler (train_loader demo_train) (demo_perm 0)
  /\ Forall (fun b => 0 < length b <= batch_size (train_loader demo_train))
       (batches (train_loader demo_train) (demo_perm 0))
  /\ length (batches (train_loader demo_train) (demo_perm 0))
     = (length (sampler (train_loader demo_train) (demo_perm 0))
        + batch_size (train_loader demo_train) - 1)
       / batch_size (train_loader demo_train).
Proof.
  apply (loader_batches (train_loader demo_train) (demo_perm 0)).
  simpl. lia.
Defined.

(** X11 at the run: two steps in the first epoch. *)
Lemma epoch_optimizer_steps_witness :
  steps (optimizer demo_epoch.1)
  = steps (optimizer demo_world) + (length (demo_perm 0) + 4) / 5.
Proof.
  apply (epoch_optimizer_steps demo_open demo_int demo_forward_train
           demo_forward_eval demo_criterion demo_item demo_grad_of Z.add demo_adam
           demo_train (demo_perm 0) demo_world demo_epoch.1 demo_epoch.2).
  vm_compute. reflexivity.
Defined.

(** X12 at the run. *)
Lemma validation_keeps_world_witness :
  heap (eval_mode demo_world) = heap demo_world
  /\ optimizer (eval_mode demo_world) = optimizer demo_world
  /\ buffers (model (eval_mode demo_world)) = buffers (model demo_world)
  /\ training (model (eval_mode demo_world)) = false.
Proof.
  apply (validation_keeps_world demo_open demo_int demo_forward_train
           demo_forward_eval demo_criterion demo_item id demo_valid demo_world
           (eval_mode demo_world) (2%float, 0%float)).
  vm_compute. reflexivity.
Defined.

(** X13 at the run: two epochs of eight indices. *)
Lemma training_loop_reports_witness :
  length demo_trained.2 = 2
  /\ (0 < 2 -> training (model demo_trained.1) = false)
  /\ steps (optimizer demo_trained.1)
     = steps (optimizer demo_world) + 2 * ((8 + 4) / 5).
Proof.
  apply (training_loop_reports demo_open demo_int demo_forward_train
           demo_forward_eval demo_criterion demo_item demo_grad_of Z.add demo_adam
           id demo_train demo_valid 2 demo_perm 8 demo_world demo_trained.1
           demo_trained.2).
  - intros epoch. reflexivity.
  - vm_compute. reflexivity.
Defined.

(** X14 at the run: the backbone parameter still requires a gradient. *)
Lemma setup_keeps_requires_grad_witness :
  exists p',
    heap demo_world !! 0 = Some p'
    /\ requires_grad p' = true /\ value p' = 10%Z /\ grad p' = None.
Proof.
  apply (setup_keeps_requires_grad tt [5%Z; 7%Z] demo_resnet18 demo_store 0
           {| value := 10%Z; grad := None; requires_grad := true;
              required_grad := None |}).
  reflexivity.
Defined.

Lemma demo_after_batch_wf : wf_world demo_after_batch.
Proof. apply train_batch_wf, demo_world_wf. Qed.

(** X15 at the run: after a first batch the backbone parameter holds the
    gradient 2; a second batch, whose gradient is 4, leaves it with 2 + 4,
    and with its value. *)
Lemma backbone_grad_accumulates_witness :
  grad <$> heap demo_after_batch !! 0 = Some (Some 2%Z)
  /\ exists p',
       heap (train_batch demo_forward_train demo_forward_eval demo_criterion
               demo_item demo_grad_of Z.add demo_adam demo_after_batch
               demo_batch_two).1 !! 0
       = Some p'
       /\ value p' = 10%Z /\ grad p' = Some 6%Z.
Proof.
  split; [reflexivity|].
  apply (backbone_grad_accumulates demo_forward_train demo_forward_eval
           demo_criterion demo_item demo_grad_of Z.add demo_adam demo_after_batch
           demo_batch_two 0 0
           {| value := 10%Z; grad := Some 2%Z; requires_grad := true;
              required_grad := Some false |} 4%Z).
  - exact demo_after_batch_wf.
  - reflexivity.
  - reflexivity.
  - reflexivity.
  - reflexivity.
Defined.

(** X16 at the run with a validation set without rows. *)
Lemma epoch_empty_validation_witness :
  epoch_body demo_open demo_int demo_forward_train demo_forward_eval
    demo_criterion demo_item demo_grad_of Z.add demo_adam id demo_train no_dataset
    demo_perm (demo_world, []) 0
  = Raise ZeroDivisionError.
Proof.
  apply (epoch_empty_validation demo_open demo_int demo_forward_train
           demo_forward_eval demo_criterion demo_item demo_grad_of Z.add demo_adam
           id demo_train no_dataset demo_perm demo_world [] 0 demo_epoch).
  - reflexivity.
  - vm_compute. reflexivity.
Defined.

(** X17 at a test index without rows. *)
Lemma inference_empty_witness :
  inference demo_open demo_int demo_forward_train demo_forward_eval id
    no_dataset demo_world
  = Ok ([], Raise ZeroDivisionError).
Proof.
  apply (inference_empty demo_open demo_int demo_forward_train demo_forward_eval
           id no_dataset demo_world).
  reflexivity.
Defined.

(** X18 at the train index of the run, which is not in test mode. *)
Lemma inference_key_error_witness :
  inference demo_open demo_int demo_forward_train demo_forward_eval id
    demo_train demo_world
  = Raise KeyError.
Proof.
  apply (inference_key_error demo_open demo_int demo_forward_train
           demo_forward_eval id demo_train demo_world demo_train_sample).
  - reflexivity.
  - left. discriminate.
Defined.

(** X19 at the test index with two files named [x.jpg]. *)
Lemma predictions_without_directory_witness :
  Forall (fun kv => existsb (Ascii.eqb "/"%char) (list_ascii_of_string kv.1) = false)
    demo_inferred.1.
Proof.
  apply (predictions_without_directory demo_open demo_int demo_forward_train
           demo_forward_eval id twin_test demo_world demo_inferred.1
           demo_inferred.2).
  vm_compute. reflexivity.
Defined.

